(** * formgen: a shallow embedding of the schema-driven form engine

    This development models, from the TypeScript sources of formgen:
    - the filtered-responses query builder
      ([graphqlService.getFormResponsesWithFilters] in
      src/services/graphql.service.ts and
      [SupabaseService.getFormResponsesWithFilters] in the Supabase service);
    - the relation display resolution of the response views;
    - the response validator [validateForm] of the edit view;
    - the not-found handling of the response views;
    - the schema reader of the response pages;
    - the CSV export of the responses index;
    - [processRelationFields] with [createForm]/[updateForm], over an
      explicit heap of JavaScript objects. *)

From Stdlib Require Import ZArith QArith Qround Ascii String List Bool Lia.
From stdpp Require Import base gmap strings list pretty sorting.
Import ListNotations.

Open Scope string_scope.
#[local] Set Warnings "-register-all".

(* ================================================================= *)
(** ** JavaScript values *)

(** JSON-like JavaScript values as they flow through the code.  Numbers
    are integers (the filters, ids and counts the code handles). *)
Inductive jsval :=
| JUndef
| JNull
| JBool (b : bool)
| JNum (n : Z)
| JStr (s : string)
| JArr (l : list jsval)
| JObj (kvs : list (string * jsval)).

(** [a === b] where one side is a primitive literal: arrays and objects
    are never strictly equal to a literal. *)
Definition strict_eq_prim (a b : jsval) : bool :=
  match a, b with
  | JUndef, JUndef => true
  | JNull, JNull => true
  | JBool x, JBool y => Bool.eqb x y
  | JNum x, JNum y => Z.eqb x y
  | JStr x, JStr y => String.eqb x y
  | _, _ => false
  end.

(** JavaScript truthiness ([!!v]). *)
Definition truthy (v : jsval) : bool :=
  match v with
  | JUndef | JNull => false
  | JBool b => b
  | JNum n => negb (Z.eqb n 0)
  | JStr s => negb (String.eqb s "")
  | JArr _ | JObj _ => true
  end.

(** [typeof v === "string"] *)
Definition is_string (v : jsval) : bool :=
  match v with JStr _ => true | _ => false end.

(** Property read [o[k]] on a plain object (first binding wins, as the
    objects built by the code have no duplicate keys); [undefined] on
    anything else. *)
Fixpoint assoc_get (k : string) (kvs : list (string * jsval)) : jsval :=
  match kvs with
  | [] => JUndef
  | (k', v) :: r => if String.eqb k k' then v else assoc_get k r
  end.

Definition get (o : jsval) (k : string) : jsval :=
  match o with JObj kvs => assoc_get k kvs | _ => JUndef end.

(** [String(v)] *)
Fixpoint js_String (v : jsval) : string :=
  match v with
  | JUndef => "undefined"
  | JNull => "null"
  | JBool true => "true"
  | JBool false => "false"
  | JNum n => pretty n
  | JStr s => s
  | JArr l =>
      (fix go (l : list jsval) : string :=
         match l with
         | [] => ""
         | [x] => match x with JUndef | JNull => "" | _ => js_String x end
         | x :: r =>
             (match x with JUndef | JNull => "" | _ => js_String x end)
               ++ "," ++ go r
         end) l
  | JObj _ => "[object Object]"
  end.

(* ================================================================= *)
(** ** Filter / query builder *)

Module QueryBuilder.

(** One entry of [filters: Record<string, {operator, value}>]. *)
Record filter := mkFilter { operator : string; value : jsval }.

(** The JSON path expression: [data->>field] (text extraction) or
    [data->field] (native JSON extraction). *)
Inductive json_path :=
| PText (field : string)
| PNative (field : string).

Definition render_path (p : json_path) : string :=
  match p with
  | PText f => "data->>" ++ f
  | PNative f => "data->" ++ f
  end.

(** The calls chained on the Supabase query builder, in order. *)
Inductive qop :=
| QSelect (cols : string) (count_exact : bool)
| QEq (col : string) (v : jsval)
| QOrder (col : string) (ascending : bool)
| QFilter (p : json_path) (op : string) (v : jsval)
| QRange (from to : Z).

(** [supabase.from("responses").select("*", {count: "exact"})
      .eq("form_id", formId).order("created_at", {ascending: false})] *)
Definition base_query (formId : string) : list qop :=
  [QSelect "*" true; QEq "form_id" (JStr formId); QOrder "created_at" false].

(** The guard of the [forEach] body. *)
Definition filter_applied (f : filter) : bool :=
  negb (strict_eq_prim (value f) (JStr "")) &&
  negb (strict_eq_prim (value f) JNull) &&
  negb (strict_eq_prim (value f) JUndef) &&
  negb (strict_eq_prim (value f) (JBool false)).

Definition isTextSearch (f : filter) : bool :=
  String.eqb (operator f) "contains" ||
  String.eqb (operator f) "startsWith" ||
  String.eqb (operator f) "endsWith" ||
  (String.eqb (operator f) "equals" && is_string (value f)).

Definition jsonPath (fieldName : string) (f : filter) : json_path :=
  if isTextSearch f then PText fieldName else PNative fieldName.

(** The calls the [forEach] body adds for one entry (graphql.service.ts,
    the [if]/[else if] chain). *)
Definition filter_ops (fieldName : string) (f : filter) : list qop :=
  if filter_applied f then
    let p := jsonPath fieldName f in
    let op := operator f in
    if String.eqb op "contains" then
      [QFilter p "ilike" (JStr ("%" ++ js_String (value f) ++ "%"))]
    else if String.eqb op "equals" then [QFilter p "eq" (value f)]
    else if String.eqb op "isTrue" then [QFilter p "eq" (JBool true)]
    else if String.eqb op "isFalse" then [QFilter p "eq" (JBool false)]
    else if String.eqb op "greaterThan" then [QFilter p "gt" (value f)]
    else if String.eqb op "lessThan" then [QFilter p "lt" (value f)]
    else if String.eqb op "startsWith" then
      [QFilter p "ilike" (JStr (js_String (value f) ++ "%"))]
    else if String.eqb op "endsWith" then
      [QFilter p "ilike" (JStr ("%" ++ js_String (value f)))]
    else if String.eqb op "greaterThanOrEqual" then [QFilter p "gte" (value f)]
    else if String.eqb op "lessThanOrEqual" then [QFilter p "lte" (value f)]
    else []
  else [].

(** [Object.entries(filters).forEach(...)] reassigning [query]. *)
Definition apply_filters (q : list qop) (filters : list (string * filter)) : list qop :=
  fold_left (fun q '(k, f) => (q ++ filter_ops k f)%list) filters q.

Definition page_from (page pageSize : Z) : Z := (page - 1) * pageSize.
Definition page_to (page pageSize : Z) : Z := page_from page pageSize + pageSize - 1.

(** The query sent by [getFormResponsesWithFilters]. *)
Definition build_query (formId : string) (filters : list (string * filter))
    (page pageSize : Z) : list qop :=
  (apply_filters (base_query formId) filters
    ++ [QRange (page_from page pageSize) (page_to page pageSize)])%list.

(** What the backend answers to [await query]. *)
Record backend_result := mkBackend {
  rdata : option (list jsval);
  rerror : option string;
  rcount : option Z
}.

Record paginated := mkPaginated {
  responses : list jsval;
  total : Z;
  pg_page : Z;
  pg_pageSize : Z;
  totalPages : Z
}.

(** [Math.ceil(x / y)] on the JavaScript numbers (exact division). *)
Definition math_ceil_div (x y : Z) : Z := Qceiling (inject_Z x / inject_Z y).

Definition getFormResponsesWithFilters
    (exec : list qop -> backend_result)
    (formId : string) (filters : list (string * filter)) (page pageSize : Z)
    : string + paginated :=
  let r := exec (build_query formId filters page pageSize) in
  match rerror r with
  | Some msg => inl msg
  | None =>
      let count := match rcount r with Some c => c | None => 0%Z end in
      inr {| responses := match rdata r with Some d => d | None => [] end;
             total := count;
             pg_page := page;
             pg_pageSize := pageSize;
             totalPages := math_ceil_div count pageSize |}
  end.

End QueryBuilder.

(** The same builder in the Supabase service ([SupabaseService]): the same
    guard and path choice, a [switch] without the [>=]/[<=] cases. *)
Module SupabaseService.
Import QueryBuilder.

Definition filter_ops (fieldName : string) (f : filter) : list qop :=
  if filter_applied f then
    let p := jsonPath fieldName f in
    let op := operator f in
    if String.eqb op "contains" then
      [QFilter p "ilike" (JStr ("%" ++ js_String (value f) ++ "%"))]
    else if String.eqb op "equals" then [QFilter p "eq" (value f)]
    else if String.eqb op "isTrue" then [QFilter p "eq" (JBool true)]
    else if String.eqb op "isFalse" then [QFilter p "eq" (JBool false)]
    else if String.eqb op "greaterThan" then [QFilter p "gt" (value f)]
    else if String.eqb op "lessThan" then [QFilter p "lt" (value f)]
    else if String.eqb op "startsWith" then
      [QFilter p "ilike" (JStr (js_String (value f) ++ "%"))]
    else if String.eqb op "endsWith" then
      [QFilter p "ilike" (JStr ("%" ++ js_String (value f)))]
    else []
  else [].

Definition apply_filters (q : list qop) (filters : list (string * filter)) : list qop :=
  fold_left (fun q '(k, f) => (q ++ filter_ops k f)%list) filters q.

Definition build_query (formId : string) (filters : list (string * filter))
    (page pageSize : Z) : list qop :=
  (apply_filters (base_query formId) filters
    ++ [QRange (page_from page pageSize) (page_to page pageSize)])%list.

End SupabaseService.

(* ================================================================= *)
(** ** Strings *)

(** [\s] on ASCII: tab, line feed, vertical tab, form feed, carriage
    return and space. *)
Definition is_ws (c : ascii) : bool :=
  match nat_of_ascii c with
  | 9 | 10 | 11 | 12 | 13 | 32 => true
  | _ => false
  end.

Fixpoint ltrim (s : string) : string :=
  match s with
  | EmptyString => EmptyString
  | String c r => if is_ws c then ltrim r else s
  end.

Definition str_rev (s : string) : string :=
  string_of_list_ascii (rev (list_ascii_of_string s)).

(** [s.trim()] *)
Definition trim (s : string) : string := str_rev (ltrim (str_rev (ltrim s))).

(** [s.includes(c)] for a one-character [c]. *)
Definition includes_char (s : string) (c : ascii) : bool :=
  existsb (fun d => Ascii.eqb c d) (list_ascii_of_string s).

(* ================================================================= *)
(** ** Schema fields *)

(** A field of a form schema: [{ id, type, label, required,
    relationConfig?: { formId?, formTitle?, displayField? } }].  The
    optional properties are kept as JavaScript values ([undefined] when
    absent). *)
Record FormField := mkField {
  fid : string;
  ftype : string;
  flabel : string;
  frequired : bool;
  rc_formId : jsval;
  rc_displayField : jsval
}.

(* ================================================================= *)
(** ** Relation display resolution *)

Module Relation.

Definition is_text_type (t : string) : bool :=
  String.eqb t "text" || String.eqb t "email" || String.eqb t "textarea".

(** [response.id?.substring?.(0, 8) || 'Unknown'] *)
Definition id_prefix (id : jsval) : string :=
  match id with
  | JStr s => let p := substring 0 8 s in if String.eqb p "" then "Unknown" else p
  | _ => "Unknown"
  end.

(** [fetchRelatedFormData] of the response view (ShowResponse): the display
    value of one target response, whose parsed [data] object is given. *)
Definition show_display (field : FormField) (relatedFormFields : list FormField)
    (response_id : jsval) (data : list (string * jsval)) : string :=
  let displayValue := "Response " ++ id_prefix response_id ++ "..." in
  let df := rc_displayField field in
  if truthy df && truthy (assoc_get (js_String df) data) then
    js_String (assoc_get (js_String df) data)
  else
    match find (fun f => is_text_type (ftype f)) relatedFormFields with
    | Some textField =>
        if truthy (assoc_get (fid textField) data)
        then js_String (assoc_get (fid textField) data)
        else displayValue
    | None => displayValue
    end.

(** [fetchRelatedResponses] of the edit view (EditResponse).  The values of
    [data] are listed in [Object.values] order. *)
Definition edit_display (field : FormField) (responseId : jsval)
    (data : list (string * jsval)) : string :=
  let displayValue := "Response " ++ substring 0 8 (js_String responseId) ++ "..." in
  let df := rc_displayField field in
  if truthy df then
    let displayFieldValue := assoc_get (js_String df) data in
    if negb (strict_eq_prim displayFieldValue JUndef) &&
       negb (strict_eq_prim displayFieldValue JNull) &&
       negb (strict_eq_prim displayFieldValue (JStr ""))
    then js_String displayFieldValue
    else
      match find (fun val => negb (strict_eq_prim val JUndef) &&
                             negb (strict_eq_prim val JNull) &&
                             negb (String.eqb (trim (js_String val)) ""))
                 (map snd data) with
      | Some firstTextValue =>
          if truthy firstTextValue then
            let strValue := js_String firstTextValue in
            if Nat.ltb 50 (String.length strValue)
            then substring 0 50 strValue ++ "..."
            else strValue
          else displayValue
      | None => displayValue
      end
  else displayValue.

End Relation.

(* ================================================================= *)
(** ** Response validation ([validateForm] of the edit view) *)

Module Validation.

(** [/^[^\s@]+@[^\s@]+\.[^\s@]+$/.test(s)]: a decomposition
    [a ++ "@" ++ b ++ "." ++ c] with [a], [b], [c] non-empty runs of
    characters that are neither white space nor [@]. *)
Definition not_ws_at (c : ascii) : bool := negb (is_ws c) && negb (Ascii.eqb c "@").

Definition plus_class (l : list ascii) : bool :=
  match l with [] => false | _ => forallb not_ws_at l end.

Definition email_regex_test (s : string) : bool :=
  let l := list_ascii_of_string s in
  existsb (fun i =>
    match skipn i l with
    | c :: r =>
        Ascii.eqb c "@" && plus_class (firstn i l) &&
        existsb (fun j =>
          match skipn j r with
          | d :: t => Ascii.eqb d "." && plus_class (firstn j r) && plus_class t
          | [] => false
          end) (seq 0 (List.length r))
    | [] => false
    end) (seq 0 (List.length l)).

(** [value.toString()] on a value already known to be truthy. *)
Definition toString (v : jsval) : string := js_String v.

(** [value.trim()]: only strings have it; anything else throws. *)
Definition js_trim (v : jsval) : option string :=
  match v with JStr s => Some (trim s) | _ => None end.

Section Validate.

(** [isNaN(Number(s))] of the JavaScript runtime. *)
Variable isNaN_Number : string -> bool.
(** [relatedResponses[field.id] || []]: the ids of the loaded options. *)
Variable relatedResponses : string -> list jsval.

Definition validate_field (formData : list (string * jsval))
    (errs : gmap string string) (field : FormField) : option (gmap string string) :=
  let value := assoc_get (fid field) formData in
  (* Check required fields *)
  let errs :=
    if frequired field then
      if String.eqb (ftype field) "checkbox" then
        if negb (truthy value) then <[fid field := flabel field ++ " is required"]> errs
        else errs
      else if String.eqb (ftype field) "select" || String.eqb (ftype field) "radio" ||
              String.eqb (ftype field) "relation" then
        if negb (truthy value) || String.eqb (trim (toString value)) ""
        then <[fid field := "Please select an option for " ++ flabel field]> errs
        else errs
      else if negb (truthy value) || String.eqb (trim (toString value)) ""
        then <[fid field := flabel field ++ " is required"]> errs
        else errs
    else errs in
  (* Email validation *)
  match
    (if String.eqb (ftype field) "email" && truthy value then
       match js_trim value with
       | None => None
       | Some t =>
           if negb (String.eqb t "") then
             if negb (email_regex_test (toString value))
             then Some (<[fid field := "Please enter a valid email address"]> errs)
             else Some errs
           else Some errs
       end
     else Some errs) with
  | None => None
  | Some errs =>
  (* Number validation *)
  match
    (if String.eqb (ftype field) "number" && truthy value then
       match js_trim value with
       | None => None
       | Some t =>
           if negb (String.eqb t "") then
             if isNaN_Number (toString value)
             then Some (<[fid field := "Please enter a valid number"]> errs)
             else Some errs
           else Some errs
       end
     else Some errs) with
  | None => None
  | Some errs =>
  (* Relation validation *)
  if String.eqb (ftype field) "relation" && frequired field && truthy value then
    if existsb (fun r => strict_eq_prim r value) (relatedResponses (fid field))
    then Some errs
    else Some (<[fid field := "Please select a valid option"]> errs)
  else Some errs
  end end.

(** [fields.forEach(...)] collecting into [newErrors]; [None] when a
    check throws. *)
Fixpoint validate_fields (formData : list (string * jsval))
    (errs : gmap string string) (fields : list FormField) : option (gmap string string) :=
  match fields with
  | [] => Some errs
  | f :: r =>
      match validate_field formData errs f with
      | Some errs' => validate_fields formData errs' r
      | None => None
      end
  end.

Definition validateForm (fields : list FormField) (formData : list (string * jsval))
    : option (gmap string string) :=
  validate_fields formData ∅ fields.

End Validate.

End Validation.

(* ================================================================= *)
(** ** Reading a stored schema *)

Module Schema.

(** [typeof v === "object"] for a truthy value. *)
Definition is_object (v : jsval) : bool :=
  match v with JArr _ | JObj _ => true | _ => false end.

(** [k in v] *)
Definition has_key (k : string) (v : jsval) : bool :=
  match v with
  | JObj kvs => existsb (fun kv => String.eqb (fst kv) k) kvs
  | _ => false
  end.

Section Reader.

(** [JSON.parse]: [None] when it throws a [SyntaxError]. *)
Variable json_parse : string -> option jsval.

(** The reader shared by the response pages:
<<
    let parsedFields = [];
    try {
      let schema = form.schema;
      if (typeof schema === "string") schema = JSON.parse(schema);
      if (schema && typeof schema === "object" && "fields" in schema)
        parsedFields = schema.fields || [];
    } catch (e) { ... }
>>
    The boolean tells whether the [catch] branch ran. *)
Definition read_schema (schema : jsval) : jsval * bool :=
  let parsed :=
    match schema with
    | JStr s => json_parse s
    | v => Some v
    end in
  match parsed with
  | None => (JArr [], true)
  | Some sch =>
      if truthy sch && is_object sch && has_key "fields" sch then
        let v := get sch "fields" in (if truthy v then v else JArr [], false)
      else (JArr [], false)
  end.

Definition parsedFields (schema : jsval) : jsval := fst (read_schema schema).

End Reader.

(** [parsedFields.forEach]: only arrays have it, anything else throws a
    [TypeError]. *)
Definition as_array (v : jsval) : option (list jsval) :=
  match v with JArr l => Some l | _ => None end.

End Schema.

(* ================================================================= *)
(** ** The response pages: loading a form and one of its responses *)

Module Views.
Import Schema.

Record form := mkForm { form_id : jsval; form_schema : jsval }.
Record response := mkResponse { resp_form_id : jsval; resp_data : jsval; resp_created_at : jsval }.

(** [v.toString()]: throws on [null] and [undefined]. *)
Definition toString_opt (v : jsval) : option string :=
  match v with JUndef | JNull => None | _ => Some (js_String v) end.

(** The React state the [fetchData] effects set. [loaded_data] is the
    response data put into the page ([setFormData] of the edit view,
    [setResponseData] of the show view); [None] while nothing was loaded. *)
Record view_state := mkView {
  formNotFound : bool;
  responseNotFound : bool;
  loading : bool;
  fields : jsval;
  loaded_data : option jsval;
  toasts : list string
}.

Definition initial_view : view_state :=
  {| formNotFound := false; responseNotFound := false; loading := true;
     fields := JArr []; loaded_data := None; toasts := [] |}.

Definition set_formNotFound (b : bool) (s : view_state) : view_state :=
  {| formNotFound := b; responseNotFound := responseNotFound s; loading := loading s;
     fields := fields s; loaded_data := loaded_data s; toasts := toasts s |}.
Definition set_responseNotFound (b : bool) (s : view_state) : view_state :=
  {| formNotFound := formNotFound s; responseNotFound := b; loading := loading s;
     fields := fields s; loaded_data := loaded_data s; toasts := toasts s |}.
Definition set_loading (b : bool) (s : view_state) : view_state :=
  {| formNotFound := formNotFound s; responseNotFound := responseNotFound s; loading := b;
     fields := fields s; loaded_data := loaded_data s; toasts := toasts s |}.
Definition set_fields (v : jsval) (s : view_state) : view_state :=
  {| formNotFound := formNotFound s; responseNotFound := responseNotFound s;
     loading := loading s; fields := v; loaded_data := loaded_data s; toasts := toasts s |}.
Definition set_loaded_data (d : jsval) (s : view_state) : view_state :=
  {| formNotFound := formNotFound s; responseNotFound := responseNotFound s;
     loading := loading s; fields := fields s; loaded_data := Some d; toasts := toasts s |}.
Definition toast (msg : string) (s : view_state) : view_state :=
  {| formNotFound := formNotFound s; responseNotFound := responseNotFound s;
     loading := loading s; fields := fields s; loaded_data := loaded_data s;
     toasts := (toasts s ++ [msg])%list |}.

(** How the [try] block of [fetchData] ends: normally (also by [return]),
    or by an exception with its message. *)
Inductive outcome :=
| Done (s : view_state)
| Threw (s : view_state) (msg : string).

Section Fetch.

Variable json_parse : string -> option jsval.
(** The backend lookups, by string id or by numeric id. *)
Variable getFormById : jsval -> option form.
Variable getResponseById : jsval -> option response.
(** [Number(s)] when it is not [NaN]. *)
Variable Number_of : string -> option Z.

Definition lookup_with_retry {A} (get : jsval -> option A) (id : string) : option A :=
  match get (JStr id) with
  | Some x => Some x
  | None => match Number_of id with Some n => get (JNum n) | None => None end
  end.

(** The [initialData] the edit view builds from the response data. *)
Definition initial_entry (data : jsval) (field : jsval) : option (string * jsval) :=
  match field with
  | JUndef | JNull => None
  | _ =>
      let value := get data (js_String (get field "id")) in
      let dflt := if strict_eq_prim (get field "type") (JStr "checkbox")
                  then JBool false else JStr "" in
      Some (js_String (get field "id"), if truthy value then value else dflt)
  end.

Fixpoint initial_data (data : jsval) (fl : list jsval) : option (list (string * jsval)) :=
  match fl with
  | [] => Some []
  | f :: r =>
      match initial_entry data f, initial_data data r with
      | Some e, Some es => Some (e :: es)
      | _, _ => None
      end
  end.

(** The [try] block of [EditResponse.fetchData]. *)
Definition edit_body (formId responseId : string) (st : view_state) : outcome :=
  match lookup_with_retry getFormById formId with
  | None => Done (toast "Form not found" (set_formNotFound true st))
  | Some form =>
      let '(pf, parse_failed) := read_schema json_parse (form_schema form) in
      let st := if parse_failed then toast "Error loading form structure" st else st in
      let st := set_fields pf st in
      match lookup_with_retry getResponseById responseId with
      | None => Done (toast "Response not found" (set_responseNotFound true st))
      | Some response =>
          match toString_opt (resp_form_id response) with
          | None => Threw st "Cannot read properties of null (reading 'toString')"
          | Some responseFormId =>
              if negb (String.eqb responseFormId formId) then
                Done (set_responseNotFound true
                        (toast "Response does not belong to this form" st))
              else
                let data := if truthy (resp_data response) then resp_data response
                            else JObj [] in
                match as_array pf with
                | None => Threw st "parsedFields.forEach is not a function"
                | Some fl =>
                    match initial_data data fl with
                    | None => Threw st "Cannot read properties of null (reading 'id')"
                    | Some init => Done (set_loaded_data (JObj init) st)
                    end
                end
          end
      end
  end.

(** The form lookup of [ShowResponse.fetchData] with [fetchedFormId]. *)
Definition show_lookup (formId : string) : option form * string :=
  match getFormById (JStr formId) with
  | Some f => (Some f, formId)
  | None =>
      match Number_of formId with
      | Some n =>
          match getFormById (JNum n) with
          | Some f => (Some f, js_String (form_id f))
          | None => (None, formId)
          end
      | None => (None, formId)
      end
  end.

(** The [try] block of [ShowResponse.fetchData]. *)
Definition show_body (formId responseId : string) (st : view_state) : outcome :=
  let '(form, fetchedFormId) := show_lookup formId in
  match form with
  | None => Done (toast "Form not found" (set_formNotFound true st))
  | Some form =>
      let '(pf, parse_failed) := read_schema json_parse (form_schema form) in
      let st := if parse_failed then toast "Error loading form structure" st else st in
      let st := set_fields pf st in
      match lookup_with_retry getResponseById responseId with
      | None => Done (toast "Response not found" (set_responseNotFound true st))
      | Some response =>
          match toString_opt (resp_form_id response) with
          | None => Threw st "Cannot read properties of null (reading 'toString')"
          | Some responseFormId =>
              if negb (String.eqb responseFormId fetchedFormId) then
                Done (set_responseNotFound true
                        (toast "Response does not belong to this form" st))
              else
                let data := if truthy (resp_data response) then resp_data response
                            else JObj [] in
                let st := set_loaded_data data st in
                (* fetchRelatedFormData starts with [fields.filter(...)] *)
                match as_array pf with
                | None => Threw st "fields.filter is not a function"
                | Some _ => Done st
                end
          end
      end
  end.

(** [useEffect(() => { ...; fetchData(); })]: the guard on the route
    parameters, then [try]/[catch]/[finally]. *)
Definition run_fetch (body : string -> string -> view_state -> outcome)
    (formId responseId : string) (st0 : view_state) : view_state :=
  if String.eqb formId "" || String.eqb responseId "" then
    set_loading false (set_formNotFound true st0)
  else
    let st := set_responseNotFound false (set_formNotFound false (set_loading true st0)) in
    match body formId responseId st with
    | Done st' => set_loading false st'
    | Threw st' msg =>
        set_loading false (set_formNotFound true (toast ("Error loading data: " ++ msg) st'))
    end.

Definition EditResponse_fetchData := run_fetch edit_body.
Definition ShowResponse_fetchData := run_fetch show_body.

End Fetch.

(** [fetchFormDetails] of the responses index: the form's fields and the
    per-field filter state. *)
Record index_state := mkIndex {
  formFields : jsval;
  filters_init : option (list string);
  index_toasts : list string
}.

Definition filter_key (field : jsval) : option string :=
  match field with JUndef | JNull => None | _ => Some (js_String (get field "id")) end.

Fixpoint filter_keys (fl : list jsval) : option (list string) :=
  match fl with
  | [] => Some []
  | f :: r =>
      match filter_key f, filter_keys r with
      | Some k, Some ks => Some (k :: ks)
      | _, _ => None
      end
  end.

Definition fetchFormDetails (json_parse : string -> option jsval)
    (form : option Views.form) (st : index_state) : index_state :=
  match form with
  | None => {| formFields := formFields st; filters_init := filters_init st;
               index_toasts := (index_toasts st ++ ["Form not found"])%list |}
  | Some form =>
      let pf := parsedFields json_parse (form_schema form) in
      match as_array pf with
      | None =>
          {| formFields := pf; filters_init := filters_init st;
             index_toasts := (index_toasts st ++
               ["Failed to load form: parsedFields.forEach is not a function"])%list |}
      | Some fl =>
          match filter_keys fl with
          | None =>
              {| formFields := pf; filters_init := filters_init st;
                 index_toasts := (index_toasts st ++
                   ["Failed to load form: Cannot read properties of null (reading 'id')"])%list |}
          | Some ks => {| formFields := pf; filters_init := Some ks; index_toasts := index_toasts st |}
          end
      end
  end.

End Views.

(* ================================================================= *)
(** ** CSV export ([handleExportCSV] of the responses index) *)

Module Csv.

Record resp := mkResp { r_id : jsval; r_data : jsval; r_created_at : jsval }.

(** The double-quote character (code 34) and the line feed (code 10). *)
Definition dq : ascii := ascii_of_nat 34.
Definition lf : ascii := ascii_of_nat 10.

(** [stringValue.replace(/Q/g, QQ)] where Q is the double quote: every
    double quote is doubled. *)
Fixpoint double_quotes (s : string) : string :=
  match s with
  | EmptyString => EmptyString
  | String c r =>
      if Ascii.eqb c dq then String dq (String dq (double_quotes r))
      else String c (double_quotes r)
  end.

(** [stringValue.includes(",") || ...includes(LF) || ...includes(Q)] *)
Definition needs_quoting (s : string) : bool :=
  includes_char s "," || includes_char s lf || includes_char s dq.

(** The per-field cell of a row. *)
Definition field_cell (response : resp) (field : FormField) : string :=
  let value := get (r_data response) (fid field) in
  match value with
  | JNull | JUndef => ""
  | _ =>
      let stringValue := js_String value in
      if needs_quoting stringValue
      then String dq (double_quotes stringValue ++ String dq EmptyString)
      else stringValue
  end.

(** [Array.prototype.join] turns [null] and [undefined] into [""]. *)
Definition join_elem (v : jsval) : string :=
  match v with JNull | JUndef => "" | _ => js_String v end.

Definition join (sep : string) (l : list string) : string := String.concat sep l.

Section CsvExport.

(** [new Date(v).toLocaleString()] in the user's locale. *)
Variable toLocaleString : jsval -> string.

Definition headers (formFields : list FormField) : list string :=
  ["Submission Date"] ++ map flabel formFields ++ ["Response ID"].

Definition row (formFields : list FormField) (response : resp) : list string :=
  let date := toLocaleString (r_created_at response) in
  [date] ++ map (field_cell response) formFields ++ [join_elem (r_id response)].

Definition csvContent (formFields : list FormField) (responses : list resp) : string :=
  join (String lf EmptyString)
    (join "," (headers formFields) :: map (fun r => join "," (row formFields r)) responses).

End CsvExport.

End Csv.

(* ================================================================= *)
(** ** Saving a form: [processRelationFields] over a heap of objects *)

Module Heap.

Definition loc := positive.

(** A JavaScript value: a primitive, or a reference to an object or array
    in the heap. *)
Inductive val :=
| VUndef
| VNull
| VBool (b : bool)
| VNum (n : Z)
| VStr (s : string)
| VRef (l : loc).

Inductive cell :=
| CObj (props : list (string * val))
| CArr (elems : list val).

Abbreviation heap := (gmap loc cell).

(** Code that reads and writes the heap and may throw: on a throw the
    heap is kept as it is at the throw. *)
Definition M (A : Type) : Type := heap -> option A * heap.

#[export] Instance M_ret : MRet M := fun A a h => (Some a, h).
#[export] Instance M_bind : MBind M := fun A B k m h =>
  match m h with
  | (Some a, h') => k a h'
  | (None, h') => (None, h')
  end.

Definition throw {A} : M A := fun h => (None, h).

(** [try { m } catch { handler }] *)
Definition try_catch {A} (m : M A) (handler : M A) : M A := fun h =>
  match m h with
  | (Some a, h') => (Some a, h')
  | (None, h') => handler h'
  end.

Fixpoint mapM_M {A B} (f : A -> M B) (l : list A) : M (list B) :=
  match l with
  | [] => mret []
  | x :: r => y ← f x; ys ← mapM_M f r; mret (y :: ys)
  end.

(** A new object or array at a location not in use. *)
Definition alloc (c : cell) : M val := fun h =>
  let l := fresh (dom h) in (Some (VRef l), <[l := c]> h).

Fixpoint prop_get (k : string) (ps : list (string * val)) : val :=
  match ps with
  | [] => VUndef
  | (k', v) :: r => if String.eqb k k' then v else prop_get k r
  end.

(** Assignment keeps the position of an existing key and appends a new
    one (JavaScript property order). *)
Fixpoint prop_set (k : string) (x : val) (ps : list (string * val)) : list (string * val) :=
  match ps with
  | [] => [(k, x)]
  | (k', v) :: r => if String.eqb k k' then (k', x) :: r else (k', v) :: prop_set k x r
  end.

(** [v.k]: throws on [null]/[undefined]; primitives have none of the
    properties the code reads. *)
Definition read_prop (v : val) (k : string) : M val :=
  match v with
  | VUndef | VNull => throw
  | VRef l => fun h =>
      match h !! l with
      | Some (CObj ps) => (Some (prop_get k ps), h)
      | Some (CArr _) => (Some VUndef, h)
      | None => (None, h)
      end
  | _ => mret VUndef
  end.

(** [v?.k] *)
Definition opt_prop (v : val) (k : string) : M val :=
  match v with VUndef | VNull => mret VUndef | _ => read_prop v k end.

(** [v.k = x] (module code is strict: assigning to a property of a
    primitive throws; the code never assigns a named property of an
    array). *)
Definition write_prop (v : val) (k : string) (x : val) : M unit :=
  match v with
  | VRef l => fun h =>
      match h !! l with
      | Some (CObj ps) => (Some tt, <[l := CObj (prop_set k x ps)]> h)
      | _ => (None, h)
      end
  | _ => throw
  end.

(** The cell [v] refers to; throws on a primitive. *)
Definition read_cell (v : val) : M cell :=
  match v with
  | VRef l => fun h => match h !! l with Some c => (Some c, h) | None => (None, h) end
  | _ => throw
  end.

(** [{...v}]: the own properties of [v] (none for a primitive). *)
Definition spread (v : val) : M (list (string * val)) :=
  match v with
  | VRef l => fun h =>
      match h !! l with
      | Some (CObj ps) => (Some ps, h)
      | Some (CArr es) => (Some (imap (fun i x => (pretty (N.of_nat i), x)) es), h)
      | None => (None, h)
      end
  | _ => mret []
  end.

Definition val_truthy (v : val) : bool :=
  match v with
  | VUndef | VNull => false
  | VBool b => b
  | VNum n => negb (Z.eqb n 0)
  | VStr s => negb (String.eqb s "")
  | VRef _ => true
  end.

(** [a === b] *)
Definition val_strict_eq (a b : val) : bool :=
  match a, b with
  | VUndef, VUndef | VNull, VNull => true
  | VBool x, VBool y => Bool.eqb x y
  | VNum x, VNum y => Z.eqb x y
  | VStr x, VStr y => String.eqb x y
  | VRef x, VRef y => Pos.eqb x y
  | _, _ => false
  end.

(** The JSON tree of a value ([JUndef] for a value [JSON.stringify]
    leaves out); [None] on a cycle or a dangling reference.  Object
    properties that are [undefined] are dropped, array elements that are
    [undefined] become [null]. *)
Fixpoint to_json (fuel : nat) (h : heap) (v : val) : option jsval :=
  match fuel with
  | O => None
  | S n =>
      match v with
      | VUndef => Some JUndef
      | VNull => Some JNull
      | VBool b => Some (JBool b)
      | VNum z => Some (JNum z)
      | VStr s => Some (JStr s)
      | VRef l =>
          match h !! l with
          | None => None
          | Some (CObj ps) =>
              kvs ← mapM (fun kv => j ← to_json n h kv.2; Some (kv.1, j)) ps;
              Some (JObj (List.filter (fun kv => match kv.2 with JUndef => false | _ => true end) kvs))
          | Some (CArr es) =>
              js ← mapM (to_json n h) es;
              Some (JArr (map (fun j => match j with JUndef => JNull | _ => j end) js))
          end
      end
  end.

(** Building the objects of a parsed JSON tree. *)
Fixpoint alloc_json (j : jsval) : M val :=
  match j with
  | JUndef => mret VUndef
  | JNull => mret VNull
  | JBool b => mret (VBool b)
  | JNum n => mret (VNum n)
  | JStr s => mret (VStr s)
  | JArr l => vs ← mapM_M alloc_json l; alloc (CArr vs)
  | JObj kvs =>
      ps ← mapM_M (fun '(k, x) => v ← alloc_json x; mret (k, v)) kvs;
      alloc (CObj ps)
  end.

(** [a === b] for a value of the cached forms against one of the heap. *)
Definition same_id (a : jsval) (b : val) : bool :=
  match a, b with
  | JUndef, VUndef | JNull, VNull => true
  | JBool x, VBool y => Bool.eqb x y
  | JNum x, VNum y => Z.eqb x y
  | JStr x, VStr y => String.eqb x y
  | _, _ => false
  end.

(** [v?.k] and [v?.[0]] on the cached forms. *)
Definition opt_get (v : jsval) (k : string) : jsval :=
  match v with JObj kvs => assoc_get k kvs | _ => JUndef end.

Definition opt_index0 (v : jsval) : jsval :=
  match v with
  | JArr (x :: _) => x
  | JStr (String c _) => JStr (String c EmptyString)
  | JObj kvs => assoc_get "0" kvs
  | _ => JUndef
  end.

Section Process.

(** [JSON.stringify] on a tree and [JSON.parse] ([None] on a
    [SyntaxError]). *)
Variable json_print : jsval -> string.
Variable json_parse : string -> option jsval.

(** [JSON.stringify(v)]: reads the heap, throws on a cycle. *)
Definition stringify (v : val) : M string := fun h =>
  match to_json (S (size h)) h v with
  | Some j => (Some (json_print j), h)
  | None => (None, h)
  end.

(** [JSON.parse(JSON.stringify(v))] *)
Definition deep_copy (v : val) : M val := fun h =>
  match to_json (S (size h)) h v with
  | None | Some JUndef => (None, h)
  | Some j =>
      match json_parse (json_print j) with
      | Some j' => alloc_json j' h
      | None => (None, h)
      end
  end.

(** [relatedForm.schema], parsed when it is a string (a parse error is
    logged and the string kept). *)
Definition related_schema (relatedForm : jsval) : jsval :=
  match get relatedForm "schema" with
  | JStr s => match json_parse s with Some j => j | None => JStr s end
  | v => v
  end.

(** The callback of [schema.fields.map(...)].  The cached forms
    ([allForms]) are read only; values taken from them are stored as
    fresh copies. *)
Definition process_field (allForms : list jsval) (field : val) : M val :=
  ty ← read_prop field "type";
  if negb (val_strict_eq ty (VStr "relation")) then mret field else
  rc ← read_prop field "relationConfig";
  formId ← opt_prop rc "formId";
  if negb (val_truthy formId) then mret field else
  match find (fun f => same_id (get f "id") formId) allForms with
  | Some relatedForm =>
      (* field.relationConfig = { ...field.relationConfig, formTitle: ... } *)
      rc0 ← read_prop field "relationConfig";
      ps ← spread rc0;
      title ← alloc_json (let t := get relatedForm "title" in
                          if truthy t then t else JStr "Untitled Form");
      newrc ← alloc (CObj (prop_set "formTitle" title ps));
      write_prop field "relationConfig" newrc;;
      (* if (!field.relationConfig.displayField) { ... } *)
      rc1 ← read_prop field "relationConfig";
      df ← read_prop rc1 "displayField";
      (if val_truthy df then mret tt else
         let id0 := opt_get (opt_index0 (opt_get (related_schema relatedForm) "fields")) "id" in
         if truthy id0 then
           v ← alloc_json id0;
           rc2 ← read_prop field "relationConfig";
           write_prop rc2 "displayField" v
         else mret tt);;
      (* if (!field.relationConfig.valueField) { ... = 'id' } *)
      rc3 ← read_prop field "relationConfig";
      vf ← read_prop rc3 "valueField";
      (if val_truthy vf then mret tt else
         rc4 ← read_prop field "relationConfig";
         write_prop rc4 "valueField" (VStr "id"));;
      mret field
  | None =>
      rc5 ← read_prop field "relationConfig";
      write_prop rc5 "formTitle" (VStr "Form not found");;
      mret field
  end.

(** From the check on [schema.fields] to the end of the [try] block. *)
Definition process_schema (allForms : list jsval) (processedData schema : val) : M unit :=
  match schema with
  | VRef _ =>
      fields ← read_prop schema "fields";
      match fields with
      | VRef _ =>
          c ← read_cell fields;
          match c with
          | CArr elems =>
              newFields ← mapM_M (process_field allForms) elems;
              arr ← alloc (CArr newFields);
              write_prop schema "fields" arr;;
              s ← stringify schema;
              write_prop processedData "schema" (VStr s)
          | CObj _ => mret tt
          end
      | _ => mret tt
      end
  | _ => mret tt
  end.

(** The [try] block of [processRelationFields]; every path returns
    [processedData]. *)
Definition process_body (allForms : list jsval) (processedData : val) : M unit :=
  schema ← read_prop processedData "schema";
  match schema with
  | VStr s =>
      match json_parse s with
      | None => mret tt
      | Some j => schema' ← alloc_json j; process_schema allForms processedData schema'
      end
  | _ => process_schema allForms processedData schema
  end.

Definition processRelationFields (allForms : list jsval) (formData : val) : M val :=
  processedData ← deep_copy formData;
  try_catch (process_body allForms processedData;; mret processedData)
            (mret processedData).

(** The variables sent by the [CreateForm] mutation (the timestamps
    apart). *)
Record form_payload := mkPayload {
  p_title : val;
  p_description : val;
  p_schema : val;
  p_updated_at : val
}.

Definition createForm (allForms : list jsval) (formData : val) : M form_payload :=
  processedFormData ← processRelationFields allForms formData;
  title ← read_prop processedFormData "title";
  description ← read_prop processedFormData "description";
  schema ← read_prop processedFormData "schema";
  mret {| p_title := title;
          p_description := if val_truthy description then description else VNull;
          p_schema := schema;
          p_updated_at := VUndef |}.

Definition updateForm (allForms : list jsval) (formData : val) : M form_payload :=
  processedFormData ← processRelationFields allForms formData;
  title ← read_prop processedFormData "title";
  description ← read_prop processedFormData "description";
  schema ← read_prop processedFormData "schema";
  updated_at ← read_prop processedFormData "updated_at";
  mret {| p_title := title;
          p_description := if val_truthy description then description else VNull;
          p_schema := schema;
          p_updated_at := updated_at |}.

End Process.

End Heap.

(* ================================================================= *)
(** ** Plain JavaScript objects and their own-property order *)

Module JSObject.

Section Obj.
Context {A : Type}.

(** An object built by assignments, as the list of its own properties in
    creation order; [obj_set] replaces a property in place, so the keys
    stay unique.  (Names inherited from [Object.prototype] are not
    modelled.) *)
Fixpoint obj_get (k : string) (o : list (string * A)) : option A :=
  match o with
  | [] => None
  | (k', v) :: r => if String.eqb k k' then Some v else obj_get k r
  end.

(** [o[k] = v] *)
Fixpoint obj_set (k : string) (v : A) (o : list (string * A)) : list (string * A) :=
  match o with
  | [] => [(k, v)]
  | (k', v') :: r => if String.eqb k k' then (k', v) :: r else (k', v') :: obj_set k v r
  end.

Definition is_digit (c : ascii) : bool :=
  Nat.leb 48 (nat_of_ascii c) && Nat.leb (nat_of_ascii c) 57.

Definition digits_value (l : list ascii) : Z :=
  fold_left (fun acc c => acc * 10 + Z.of_nat (nat_of_ascii c - 48))%Z l 0%Z.

(** An array index: the canonical decimal form of an integer below
    [2^32 - 1]. *)
Definition is_array_index (s : string) : bool :=
  match list_ascii_of_string s with
  | [] => false
  | c :: r =>
      forallb is_digit (c :: r) &&
      (negb (Ascii.eqb c "0") || Nat.eqb (List.length r) 0) &&
      Z.ltb (digits_value (c :: r)) 4294967295
  end.

Definition index_value (s : string) : Z := digits_value (list_ascii_of_string s).

Definition index_le (a b : string * A) : Prop := (index_value a.1 <= index_value b.1)%Z.

#[global] Instance index_le_dec : RelDecision index_le :=
  fun a b => decide (index_value a.1 <= index_value b.1)%Z.

(** [Object.entries(o)]: the array-index keys in ascending order, then
    the other keys in creation order. *)
Definition obj_entries (o : list (string * A)) : list (string * A) :=
  (merge_sort index_le (List.filter (fun kv => is_array_index kv.1) o)
   ++ List.filter (fun kv => negb (is_array_index kv.1)) o)%list.

(** [Object.keys(o)] and [Object.values(o)] *)
Definition obj_keys (o : list (string * A)) : list string := map fst (obj_entries o).
Definition obj_values (o : list (string * A)) : list A := map snd (obj_entries o).

End Obj.

End JSObject.

(* ================================================================= *)
(** ** The responses index: filters, search, deletion *)

Module Index.
Import QueryBuilder JSObject.

(** One entry of the page's [FilterState]: [{ value, label, type }], with
    [undefined] for a property the entry lacks. *)
Record filter_entry := mkEntry { fe_value : jsval; fe_label : jsval; fe_type : jsval }.

(** [t === "s"] *)
Definition type_is (t : jsval) (s : string) : bool := strict_eq_prim t (JStr s).

Definition getImplicitOperator (fieldType : jsval) : string :=
  if type_is fieldType "text" || type_is fieldType "email" || type_is fieldType "textarea"
  then "contains"
  else if type_is fieldType "checkbox" then "isTrue"
  else if type_is fieldType "select" || type_is fieldType "radio" || type_is fieldType "dropdown"
  then "equals"
  else "equals".

(** The first [forEach] of [fetchResponses]: the search term on every text
    field. *)
Definition search_filters (filters : list (string * filter_entry)) (term : string)
    (active : list (string * filter)) : list (string * filter) :=
  fold_left (fun acc '(fieldId, f) =>
      if type_is (fe_type f) "text" || type_is (fe_type f) "email" ||
         type_is (fe_type f) "textarea"
      then obj_set fieldId (mkFilter "contains" (JStr term)) acc
      else acc) (obj_entries filters) active.

(** The [{ operator, value }] built for a field's own filter value. *)
Definition field_filter (f : filter_entry) : filter :=
  let '(operator, value) :=
    if type_is (fe_type f) "checkbox" then
      if strict_eq_prim (fe_value f) (JStr "true") then ("isTrue", JBool true)
      else if strict_eq_prim (fe_value f) (JStr "false") then ("isFalse", JBool false)
      else (getImplicitOperator (fe_type f), fe_value f)
    else (getImplicitOperator (fe_type f), fe_value f) in
  let operator :=
    if type_is (fe_type f) "select" || type_is (fe_type f) "radio" ||
       type_is (fe_type f) "dropdown"
    then "equals" else operator in
  mkFilter operator value.

(** [!filter.value || filter.value === "" || filter.value === "__all__"] *)
Definition skipped (f : filter_entry) : bool :=
  negb (truthy (fe_value f)) || strict_eq_prim (fe_value f) (JStr "") ||
  strict_eq_prim (fe_value f) (JStr "__all__").

(** The second [forEach] of [fetchResponses]: the fields' own values; a
    search filter already set is kept only for a field of type text. *)
Definition field_filters (filters : list (string * filter_entry))
    (active : list (string * filter)) : list (string * filter) :=
  fold_left (fun acc '(fieldId, f) =>
      if skipped f then acc
      else if negb (match obj_get fieldId acc with Some _ => true | None => false end) ||
              negb (type_is (fe_type f) "text")
      then obj_set fieldId (field_filter f) acc
      else acc) (obj_entries filters) active.

(** [activeFilters] of [fetchResponses]. *)
Definition activeFilters (filters : list (string * filter_entry)) (searchTerm : string)
    : list (string * filter) :=
  let active :=
    if negb (String.eqb (trim searchTerm) "")
    then search_filters filters (trim searchTerm) [] else [] in
  field_filters filters active.

(** The page state the filter handlers and [fetchResponses] use (the
    loading flag apart). *)
Record index_view := mkIndexView {
  filters : list (string * filter_entry);
  searchTerm : string;
  currentPage : Z;
  pageSize : Z;
  responses_shown : list jsval;
  totalCount : Z;
  itoasts : list string
}.

(** The query [fetchResponses] has [getFormResponsesWithFilters] send (the
    latter runs [Object.entries] on the filters object). *)
Definition fetchResponses_query (formId : string) (st : index_view) : list qop :=
  build_query formId (obj_entries (activeFilters (filters st) (searchTerm st)))
    (currentPage st) (pageSize st).

Definition fetchResponses (exec : list qop -> backend_result) (formId : string)
    (st : index_view) : index_view :=
  if String.eqb formId "" then st else
  match getFormResponsesWithFilters exec formId
          (obj_entries (activeFilters (filters st) (searchTerm st)))
          (currentPage st) (pageSize st) with
  | inl msg =>
      {| filters := filters st; searchTerm := searchTerm st; currentPage := currentPage st;
         pageSize := pageSize st; responses_shown := []; totalCount := 0;
         itoasts := (itoasts st ++ [("Failed to load responses: " ++ msg)%string])%list |}
  | inr r =>
      {| filters := filters st; searchTerm := searchTerm st; currentPage := currentPage st;
         pageSize := pageSize st; responses_shown := responses r; totalCount := total r;
         itoasts := itoasts st |}
  end.

Definition handleFilterChange (fieldId : string) (value : jsval) (st : index_view)
    : index_view :=
  let actualValue := if strict_eq_prim value (JStr "__all__") then JStr "" else value in
  let entry :=
    match obj_get fieldId (filters st) with
    | Some e => mkEntry actualValue (fe_label e) (fe_type e)
    | None => mkEntry actualValue JUndef JUndef
    end in
  (* { ...prev, [fieldId]: ... } copies [prev] in its key order *)
  {| filters := obj_set fieldId entry (obj_entries (filters st));
     searchTerm := searchTerm st; currentPage := 1; pageSize := pageSize st;
     responses_shown := responses_shown st; totalCount := totalCount st;
     itoasts := itoasts st |}.

Definition clearFilters (st : index_view) : index_view :=
  let clearedFilters :=
    fold_left (fun acc fieldId =>
        match obj_get fieldId (filters st) with
        | Some e => obj_set fieldId (mkEntry (JStr "") (fe_label e) (fe_type e)) acc
        | None => obj_set fieldId (mkEntry (JStr "") JUndef JUndef) acc
        end) (obj_keys (filters st)) [] in
  {| filters := clearedFilters; searchTerm := ""; currentPage := 1;
     pageSize := pageSize st; responses_shown := responses_shown st;
     totalCount := totalCount st; itoasts := itoasts st |}.

(** [Object.values(v)]: throws on [null] and [undefined]; a string gives
    its characters. *)
Definition object_values (v : jsval) : option (list jsval) :=
  match v with
  | JUndef | JNull => None
  | JObj kvs => Some (obj_values kvs)
  | JArr l => Some l
  | JStr s => Some (map (fun c => JStr (String c EmptyString)) (list_ascii_of_string s))
  | _ => Some []
  end.

(** The [if (firstField && String(firstField).trim())] block shared by
    [handleDeleteClick] and [extractResopnseIdentifier]. *)
Definition quoted_identifier (firstField : jsval) : option string :=
  if truthy firstField && negb (String.eqb (trim (js_String firstField)) "") then
    let fieldValue := js_String firstField in
    Some ("response " ++ String Csv.dq
            (substring 0 30 fieldValue ++
             (if Nat.ltb 30 (String.length fieldValue) then "..." else "") ++
             String Csv.dq EmptyString))
  else None.

(** The delete dialog state of the page. *)
Record delete_state := mkDelete {
  del_responses : list jsval;
  del_totalCount : Z;
  responseToDelete : option (string * string);
  deletingId : option string;
  deleteDialogOpen : bool;
  del_toasts : list string
}.

(** The identifier computed by [handleDeleteClick]. *)
Definition delete_identifier (responseData : jsval) : string :=
  match object_values responseData with
  | None => "this response"   (* the [catch] branch *)
  | Some vs =>
      match quoted_identifier (hd JUndef vs) with
      | Some i => i
      | None => "this response"
      end
  end.

Definition handleDeleteClick (responseId : string) (responseData : jsval)
    (st : delete_state) : delete_state :=
  {| del_responses := del_responses st; del_totalCount := del_totalCount st;
     responseToDelete := Some (responseId, delete_identifier responseData);
     deletingId := deletingId st; deleteDialogOpen := true; del_toasts := del_toasts st |}.

(** [extractResopnseIdentifier] (lib/utils); [None] when it throws. *)
Definition extractResopnseIdentifier (response : jsval) : option string :=
  match response with
  | JUndef | JNull => None
  | _ =>
      match object_values (get response "data") with
      | None => None
      | Some vs =>
          match quoted_identifier (hd JUndef vs) with
          | Some i => Some i
          | None => Some ("Response " ++ js_String (get response "id"))
          end
      end
  end.

(** How a backend call ends: normally, or by an error with its message. *)
Inductive call_result := Ok | Err (msg : string).

Definition handleDeleteConfirm (deleteResponse : string -> call_result)
    (st : delete_state) : delete_state :=
  match responseToDelete st with
  | None => st
  | Some (id, _) =>
      let '(rs, total, ts) :=
        match deleteResponse id with
        | Ok =>
            (List.filter (fun r => negb (strict_eq_prim (get r "id") (JStr id))) (del_responses st),
             (del_totalCount st - 1)%Z,
             (del_toasts st ++ ["Response deleted successfully"])%list)
        | Err msg =>
            (del_responses st, del_totalCount st,
             (del_toasts st ++ [("Failed to delete response: " ++ msg)%string])%list)
        end in
      (* finally *)
      {| del_responses := rs; del_totalCount := total; responseToDelete := None;
         deletingId := None; deleteDialogOpen := false; del_toasts := ts |}
  end.

(** [getRelationDisplayValue] of the responses table: [relatedFormData]
    maps a form id to the loaded responses of that form, by response id;
    [None] when it throws. *)
Record related_entry := mkRelated { displayValue : string; rel_data : jsval }.

Definition getRelationDisplayValue
    (relatedFormData : list (string * list (string * related_entry)))
    (field : FormField) (value : jsval) : option string :=
  if negb (truthy value) then Some "Not selected" else
  if truthy (rc_formId field) then
    match obj_get (js_String (rc_formId field)) relatedFormData with
    | None => Some ("Loading... (Form: " ++ js_String (rc_formId field) ++ ")")
    | Some formData =>
        match obj_get (js_String value) formData with
        | Some responseData => Some (displayValue responseData)
        | None =>
            match obj_values formData with
            | firstResponse :: _ => Some (displayValue firstResponse)
            | [] =>
                match value with
                | JStr s => Some ("Response: " ++ substring 0 8 s ++ "...")
                | _ => None
                end
            end
        end
    end
  else Some ("Form: " ++ js_String value).

End Index.

(* ================================================================= *)
(** ** Reading back one CSV cell *)

Module CsvRead.
Import Csv.

(** A reader of RFC 4180 cells: a cell in double quotes is unwrapped and
    its doubled quotes undoubled; any other cell is taken as it is. *)
Fixpoint undouble (l : list ascii) : list ascii :=
  match l with
  | [] => []
  | c :: t =>
      match t with
      | d :: r => if Ascii.eqb c dq && Ascii.eqb d dq then dq :: undouble r else c :: undouble t
      | [] => [c]
      end
  end.

Definition read_cell (cell : string) : string :=
  match list_ascii_of_string cell with
  | c :: rest =>
      if Ascii.eqb c dq && (match rev rest with d :: _ => Ascii.eqb d dq | [] => false end)
      then string_of_list_ascii (undouble (removelast rest))
      else cell
  | [] => cell
  end.

End CsvRead.

(* ================================================================= *)
(** ** The forms cache of the GraphQL service *)

Module FormsCache.

Record service := mkService { formsCache : list jsval }.

(** [result.formsCollection?.edges?.map((edge) => edge.node) || []];
    [None] when it throws. *)
Definition edges_nodes (result : jsval) : option (list jsval) :=
  match result with
  | JUndef | JNull => None
  | _ =>
      match get result "formsCollection" with
      | JUndef | JNull => Some []
      | fc =>
          match get fc "edges" with
          | JUndef | JNull => Some []
          | JArr es =>
              mapM (fun e => match e with JUndef | JNull => None | _ => Some (get e "node") end) es
          | _ => None
          end
      end
  end.

(** [getForms]: [answer] is what the GraphQL query returns ([None] when it
    throws). *)
Definition getForms (answer : option jsval) (s : service) : option (list jsval) * service :=
  match answer with
  | None => (None, s)
  | Some result =>
      match edges_nodes result with
      | None => (None, s)
      | Some forms => (Some forms, mkService forms)
      end
  end.

(** [getAllForms]: the cache when it is not empty, else a fresh
    [getForms] ([[]] when that throws). *)
Definition getAllForms (answer : option jsval) (s : service) : list jsval * service :=
  if Nat.ltb 0 (List.length (formsCache s)) then (formsCache s, s)
  else
    match getForms answer s with
    | (Some forms, _) => (forms, mkService forms)
    | (None, s') => ([], s')
    end.

(** [result.deleteFromformsCollection?.records?.[0] || null] *)
Definition first_record (result : jsval) (key : string) : option jsval :=
  match result with
  | JUndef | JNull => None
  | _ =>
      match get result key with
      | JUndef | JNull => Some JNull
      | c =>
          match get c "records" with
          | JUndef | JNull => Some JNull
          | recs => let x := Heap.opt_index0 recs in Some (if truthy x then x else JNull)
          end
      end
  end.

(** [deleteForm]: the cache is emptied once the mutation has returned. *)
Definition deleteForm (answer : option jsval) (s : service) : option jsval * service :=
  match answer with
  | None => (None, s)
  | Some result => (first_record result "deleteFromformsCollection", mkService [])
  end.

End FormsCache.

(* ================================================================= *)
(** ** Paginated responses without filters *)

Module Paginated.
Import QueryBuilder.

(** The query of [getFormResponsesPaginated]. *)
Definition paginated_query (formId : string) (page pageSize : Z) : list qop :=
  [QSelect "*" true; QEq "form_id" (JStr formId); QOrder "created_at" false;
   QRange (page_from page pageSize) (page_to page pageSize)].

Definition getFormResponsesPaginated (exec : list qop -> backend_result)
    (formId : string) (page pageSize : Z) : string + paginated :=
  let r := exec (paginated_query formId page pageSize) in
  match rerror r with
  | Some msg => inl msg
  | None =>
      let count := match rcount r with Some c => c | None => 0%Z end in
      inr {| responses := match rdata r with Some d => d | None => [] end;
             total := count;
             pg_page := page;
             pg_pageSize := pageSize;
             totalPages := math_ceil_div count pageSize |}
  end.

End Paginated.

(* ================================================================= *)
(** * Properties *)

Module QueryBuilderFacts.
Import QueryBuilder.

Lemma apply_filters_app (q : list qop) (filters : list (string * filter)) :
  apply_filters q filters = (q ++ concat (map (fun '(k, f) => filter_ops k f) filters))%list.
Proof.
  revert q. induction filters as [|[k f] r IH]; intros q; simpl.
  - by rewrite app_nil_r.
  - unfold apply_filters in *. simpl. rewrite IH. by rewrite app_assoc.
Qed.

Lemma sb_apply_filters_app (q : list qop) (filters : list (string * filter)) :
  SupabaseService.apply_filters q filters
  = (q ++ concat (map (fun '(k, f) => SupabaseService.filter_ops k f) filters))%list.
Proof.
  revert q. induction filters as [|[k f] r IH]; intros q; simpl.
  - by rewrite app_nil_r.
  - unfold SupabaseService.apply_filters in *. simpl. rewrite IH. by rewrite app_assoc.
Qed.

Definition is_filter_op (o : qop) : Prop :=
  match o with QFilter _ _ _ => True | _ => False end.

Lemma filter_ops_only_filters (k : string) (f : filter) :
  Forall is_filter_op (filter_ops k f).
Proof.
  unfold filter_ops. repeat case_match; repeat constructor.
Qed.

Lemma sb_filter_ops_only_filters (k : string) (f : filter) :
  Forall is_filter_op (SupabaseService.filter_ops k f).
Proof.
  unfold SupabaseService.filter_ops. repeat case_match; repeat constructor.
Qed.

Lemma concat_filters_only (g : string -> filter -> list qop)
    (Hg : forall k f, Forall is_filter_op (g k f)) (filters : list (string * filter)) :
  Forall is_filter_op (concat (map (fun '(k, f) => g k f) filters)).
Proof.
  induction filters as [|[k f] r IH]; simpl; [constructor|].
  apply Forall_app. split; [apply Hg | exact IH].
Qed.

(** Every applied entry contributes the one call the chain picks, with
    the path chosen by [isTextSearch]. *)
Lemma filter_ops_path (k : string) (f : filter) (p : json_path) (o : string) (v : jsval) :
  filter_ops k f = [QFilter p o v] -> p = jsonPath k f.
Proof.
  unfold filter_ops. intros H. repeat case_match; simplify_eq; done.
Qed.

Lemma sb_filter_ops_path (k : string) (f : filter) (p : json_path) (o : string) (v : jsval) :
  SupabaseService.filter_ops k f = [QFilter p o v] -> p = jsonPath k f.
Proof.
  unfold SupabaseService.filter_ops. intros H. repeat case_match; simplify_eq; done.
Qed.

Lemma isTextSearch_spec (f : filter) :
  isTextSearch f = true <->
  (operator f = "contains" \/ operator f = "startsWith" \/ operator f = "endsWith" \/
   (operator f = "equals" /\ exists s, value f = JStr s)).
Proof.
  unfold isTextSearch, is_string.
  rewrite !orb_true_iff, andb_true_iff, !String.eqb_eq.
  destruct (value f); split; intros H; intuition (try congruence; eauto);
    match goal with
    | H : exists _, _ |- _ => destruct H; congruence
    | _ => idtac
    end.
Qed.

Lemma filter_ops_skip_iff (k : string) (f : filter) :
  filter_applied f = false <->
  (value f = JStr "" \/ value f = JNull \/ value f = JUndef \/ value f = JBool false).
Proof.
  unfold filter_applied, strict_eq_prim.
  destruct (value f) as [| |[]|n|s|l|kvs]; simpl; try naive_solver.
  destruct (String.eqb_spec s ""); subst; simpl; naive_solver.
Qed.

Lemma math_ceil_div_spec (t p : Z) : (0 < p)%Z ->
  ((math_ceil_div t p - 1) * p < t)%Z /\ (t <= math_ceil_div t p * p)%Z.
Proof.
  intros Hp. destruct p as [|pp|pp]; try lia.
  unfold math_ceil_div.
  pose proof (Qle_ceiling (inject_Z t / inject_Z (Zpos pp))) as H1.
  pose proof (Qceiling_lt (inject_Z t / inject_Z (Zpos pp))) as H2.
  set (k := Qceiling (inject_Z t / inject_Z (Zpos pp))) in *.
  unfold Qle, Qlt in *; simpl in *. split; lia.
Qed.

(** C1 (code_bug): an entry with operator [isFalse] and value [false] is
    skipped by the guard of both builders, so it adds no constraint; the
    query for the single filter [{ agree: isFalse false }] is the base
    query and the range only. *)
Theorem isFalse_false_filter_dropped (k : string) :
  filter_ops k (mkFilter "isFalse" (JBool false)) = [] /\
  SupabaseService.filter_ops k (mkFilter "isFalse" (JBool false)) = [] /\
  build_query "form-1" [("agree", mkFilter "isFalse" (JBool false))] 1 10
    = (base_query "form-1" ++ [QRange 0 9])%list /\
  SupabaseService.build_query "form-1" [("agree", mkFilter "isFalse" (JBool false))] 1 10
    = (base_query "form-1" ++ [QRange 0 9])%list.
Proof. repeat split; reflexivity. Qed.

(** C2: for an applied entry (one that adds a constraint), in either
    builder, the path is [data->>field] exactly when the operator is
    [contains], [startsWith] or [endsWith], or [equals] with a string
    value; otherwise it is [data->field]. *)
Theorem applied_filter_path_choice (k : string) (f : filter) (p : json_path)
    (o : string) (v : jsval) :
  (filter_ops k f = [QFilter p o v] \/ SupabaseService.filter_ops k f = [QFilter p o v]) ->
  (p = PText k <->
     (operator f = "contains" \/ operator f = "startsWith" \/ operator f = "endsWith" \/
      (operator f = "equals" /\ exists s, value f = JStr s))) /\
  (p = PNative k <->
     ~ (operator f = "contains" \/ operator f = "startsWith" \/ operator f = "endsWith" \/
        (operator f = "equals" /\ exists s, value f = JStr s))).
Proof.
  intros H.
  assert (Hp : p = jsonPath k f)
    by (destruct H as [H|H]; [exact (filter_ops_path _ _ _ _ _ H)
                              | exact (sb_filter_ops_path _ _ _ _ _ H)]).
  rewrite <- isTextSearch_spec. subst p. unfold jsonPath.
  destruct (isTextSearch f); split; split; intros; try done; congruence.
Qed.

Lemma applied_filter_path_choice_witness :
  filter_ops "name" (mkFilter "contains" (JStr "Ja"))
    = [QFilter (PText "name") "ilike" (JStr "%Ja%")] /\
  (PText "name" = PText "name" <->
     (operator (mkFilter "contains" (JStr "Ja")) = "contains" \/
      operator (mkFilter "contains" (JStr "Ja")) = "startsWith" \/
      operator (mkFilter "contains" (JStr "Ja")) = "endsWith" \/
      (operator (mkFilter "contains" (JStr "Ja")) = "equals" /\
       exists s, value (mkFilter "contains" (JStr "Ja")) = JStr s))).
Proof.
  split; [reflexivity|].
  apply (applied_filter_path_choice "name" (mkFilter "contains" (JStr "Ja"))
           (PText "name") "ilike" (JStr "%Ja%")).
  left. reflexivity.
Defined.

(** C5: the query ends with the inclusive range
    [from = (page-1)*pageSize], [to = from+pageSize-1]; for a positive
    page size [totalPages] is the ceiling of [total/pageSize]
    ([(totalPages-1)*pageSize < total <= totalPages*pageSize]); and the
    three cases of the spec. *)
Theorem pagination_math (exec : list qop -> backend_result) (formId : string)
    (filters : list (string * filter)) (page pageSize : Z) (r : paginated) :
  (0 < pageSize)%Z ->
  getFormResponsesWithFilters exec formId filters page pageSize = inr r ->
  (exists q, build_query formId filters page pageSize =
             (q ++ [QRange ((page - 1) * pageSize) ((page - 1) * pageSize + pageSize - 1)])%list) /\
  ((totalPages r - 1) * pageSize < total r <= totalPages r * pageSize)%Z /\
  math_ceil_div 0 10 = 0%Z /\ math_ceil_div 25 10 = 3%Z /\
  page_from 3 10 = 20%Z /\ page_to 3 10 = 29%Z.
Proof.
  intros Hp Hr. unfold getFormResponsesWithFilters in Hr.
  destruct (rerror _); [discriminate|]. injection Hr as <-. simpl.
  split; [eexists; reflexivity|].
  split; [apply math_ceil_div_spec; exact Hp|].
  repeat split; reflexivity.
Qed.

Definition pagination_exec (q : list qop) : backend_result :=
  mkBackend (Some []) None (Some 25%Z).

Lemma pagination_math_witness :
  (0 < 10)%Z /\
  getFormResponsesWithFilters pagination_exec "form-1" [] 3 10
    = inr (mkPaginated [] 25 3 10 3) /\
  ((totalPages (mkPaginated [] 25 3 10 3) - 1) * 10 < total (mkPaginated [] 25 3 10 3)
     <= totalPages (mkPaginated [] 25 3 10 3) * 10)%Z.
Proof.
  assert (Hp : (0 < 10)%Z) by lia.
  assert (Hr : getFormResponsesWithFilters pagination_exec "form-1" [] 3 10
                 = inr (mkPaginated [] 25 3 10 3)) by reflexivity.
  split; [exact Hp|]. split; [exact Hr|].
  exact (proj1 (proj2 (pagination_math pagination_exec "form-1" [] 3 10 _ Hp Hr))).
Defined.

(** C8: whatever the filters, page and page size, both builders send the
    base query first (select with exact count, [form_id] equality,
    [created_at] descending), and every later call is a field filter or
    the range: nothing replaces the form constraint or the order. *)
Theorem query_always_scoped_and_ordered (formId : string)
    (filters : list (string * filter)) (page pageSize : Z) :
  (exists rest,
     build_query formId filters page pageSize =
       ([QSelect "*" true; QEq "form_id" (JStr formId); QOrder "created_at" false] ++ rest)%list /\
     Forall (fun o => is_filter_op o \/ o = QRange (page_from page pageSize) (page_to page pageSize)) rest) /\
  (exists rest,
     SupabaseService.build_query formId filters page pageSize =
       ([QSelect "*" true; QEq "form_id" (JStr formId); QOrder "created_at" false] ++ rest)%list /\
     Forall (fun o => is_filter_op o \/ o = QRange (page_from page pageSize) (page_to page pageSize)) rest).
Proof.
  split.
  - unfold build_query. rewrite apply_filters_app. eexists. split.
    + unfold base_query. rewrite <- app_assoc. reflexivity.
    + apply Forall_app. split.
      * eapply Forall_impl; [apply concat_filters_only, filter_ops_only_filters|]. auto.
      * constructor; [by right|constructor].
  - unfold SupabaseService.build_query. rewrite sb_apply_filters_app. eexists. split.
    + unfold base_query. rewrite <- app_assoc. reflexivity.
    + apply Forall_app. split.
      * eapply Forall_impl; [apply concat_filters_only, sb_filter_ops_only_filters|]. auto.
      * constructor; [by right|constructor].
Qed.

End QueryBuilderFacts.

Module RelationFacts.
Import Relation.

(** C3 (code_bug): for a relation field with no [displayField] and a
    target response whose first text field holds "Jane", the show view
    resolves "Jane" but the edit view ([fetchRelatedResponses]) keeps the
    synthetic label: its fallback only runs when a [displayField] is set. *)
Theorem relation_display_fallback_edit_view :
  let field := mkField "link" "relation" "Link" false (JStr "form-2") JUndef in
  show_display field [mkField "name" "text" "Name" true JUndef JUndef]
    (JStr "abcdef123456") [("name", JStr "Jane")] = "Jane" /\
  edit_display field (JStr "abcdef123456") [("name", JStr "Jane")]
    = "Response abcdef12...".
Proof. split; reflexivity. Qed.

(** In the edit view, a field without [displayField] always gets the
    synthetic label, whatever the target response holds. *)
Lemma edit_display_no_displayField (id : string) (ty lab : string) (req : bool)
    (formId : jsval) (responseId : jsval) (data : list (string * jsval)) :
  edit_display (mkField id ty lab req formId JUndef) responseId data
  = "Response " ++ substring 0 8 (js_String responseId) ++ "...".
Proof. reflexivity. Qed.

End RelationFacts.

Module ValidationFacts.
Import Validation.

Section Facts.
Variable isNaN_Number : string -> bool.
Variable relatedResponses : string -> list jsval.

Lemma validate_field_other (d : list (string * jsval)) (e e' : gmap string string)
    (g : FormField) (k : string) :
  validate_field isNaN_Number relatedResponses d e g = Some e' ->
  k <> fid g -> e' !! k = e !! k.
Proof.
  unfold validate_field. intros H Hk.
  repeat (case_match; simplify_eq; try discriminate);
    rewrite ?lookup_insert_ne by congruence; rewrite ?lookup_insert_ne by congruence; done.
Qed.

Lemma validate_fields_other (d : list (string * jsval)) (fs : list FormField)
    (e e' : gmap string string) (k : string) :
  validate_fields isNaN_Number relatedResponses d e fs = Some e' ->
  Forall (fun g => k <> fid g) fs -> e' !! k = e !! k.
Proof.
  revert e. induction fs as [|g r IH]; simpl; intros e H Hall.
  - by injection H as <-.
  - inversion Hall; subst.
    destruct (validate_field _ _ d e g) as [e1|] eqn:E; [|discriminate].
    rewrite (IH e1 H); [|done]. eapply validate_field_other; eauto.
Qed.

Lemma validate_fields_app (d : list (string * jsval)) (l1 l2 : list FormField)
    (e : gmap string string) :
  validate_fields isNaN_Number relatedResponses d e (l1 ++ l2) =
  match validate_fields isNaN_Number relatedResponses d e l1 with
  | Some e' => validate_fields isNaN_Number relatedResponses d e' l2
  | None => None
  end.
Proof.
  revert e. induction l1 as [|g r IH]; simpl; intros e; [done|].
  destruct (validate_field _ _ d e g); [apply IH|done].
Qed.

(** The error a unique field ends with is the one its own check leaves
    on a map where its key is absent. *)
Lemma validateForm_field (fields : list FormField) (d : list (string * jsval))
    (errs : gmap string string) (f : FormField) :
  NoDup (map fid fields) -> In f fields ->
  validateForm isNaN_Number relatedResponses fields d = Some errs ->
  exists e0 e1, e0 !! fid f = None /\
    validate_field isNaN_Number relatedResponses d e0 f = Some e1 /\
    errs !! fid f = e1 !! fid f.
Proof.
  intros Hnd Hin H. apply in_split in Hin as (l1 & l2 & ->).
  unfold validateForm in H. rewrite validate_fields_app in H.
  rewrite map_app in Hnd. simpl in Hnd.
  apply NoDup_app in Hnd as (Hnd1 & Hdisj & Hnd2).
  destruct (validate_fields _ _ d ∅ l1) as [e0|] eqn:E0; [|discriminate].
  simpl in H. destruct (validate_field _ _ d e0 f) as [e1|] eqn:E1; [|discriminate].
  exists e0, e1. split; [|split; [done|]].
  - rewrite (validate_fields_other d l1 ∅ e0 (fid f) E0); [done|].
    apply Forall_forall. intros g Hg Heq.
    apply (Hdisj (fid f)); [|by left]. rewrite Heq.
    apply list_elem_of_In, in_map_iff. exists g. split; [done|]. by apply list_elem_of_In.
  - apply (validate_fields_other d l2 e1 errs (fid f) H).
    apply NoDup_cons in Hnd2 as [Hnot _].
    apply Forall_forall. intros g Hg Heq. apply Hnot. rewrite Heq.
    apply list_elem_of_In, in_map_iff. exists g. split; [done|]. by apply list_elem_of_In.
Qed.

End Facts.

Section Cases.
Variable isNaN_Number : string -> bool.
Variable relatedResponses : string -> list jsval.

Lemma trim_a_at_b : trim "a@b" = "a@b".
Proof. reflexivity. Qed.

Lemma trim_a_at_b_com : trim "a@b.com" = "a@b.com".
Proof. reflexivity. Qed.

Lemma validate_field_cases (d : list (string * jsval)) (e0 e1 : gmap string string)
    (f : FormField) :
  e0 !! fid f = None ->
  validate_field isNaN_Number relatedResponses d e0 f = Some e1 ->
  (ftype f = "text" -> frequired f = true -> forall s,
     assoc_get (fid f) d = JStr s -> trim s = "" ->
     e1 !! fid f = Some (flabel f ++ " is required")) /\
  (ftype f = "email" -> frequired f = false -> assoc_get (fid f) d = JStr "" ->
     e1 !! fid f = None) /\
  (ftype f = "email" -> assoc_get (fid f) d = JStr "a@b" ->
     e1 !! fid f = Some "Please enter a valid email address") /\
  (ftype f = "email" -> assoc_get (fid f) d = JStr "a@b.com" ->
     e1 !! fid f = None).
Proof.
  destruct f as [id ty lab req fo df]; simpl. intros He0 H.
  unfold validate_field in H; simpl in H.
  repeat split.
  - intros -> -> s Hv Ht. rewrite Hv in H. simpl in H. rewrite Ht in H.
    rewrite orb_true_r in H. injection H as <-. by rewrite lookup_insert_eq.
  - intros -> -> Hv. rewrite Hv in H. simpl in H. by injection H as <-.
  - intros -> Hv. rewrite Hv in H. simpl in H.
    destruct req; simpl in H; injection H as <-; by rewrite lookup_insert_eq.
  - intros -> Hv. rewrite Hv in H. simpl in H.
    destruct req; simpl in H; injection H as <-; done.
Qed.

(** C4: with field ids unique (the schema invariant), the errors
    [validateForm] collects satisfy the four cases of the spec: a required
    text field holding only white space gets "<label> is required" under
    its id; a non-required email field holding "" gets no error; an email
    field holding "a@b" gets the format error; one holding "a@b.com" gets
    none. *)
Theorem validateForm_cases (fields : list FormField) (formData : list (string * jsval))
    (errs : gmap string string) :
  NoDup (map fid fields) ->
  validateForm isNaN_Number relatedResponses fields formData = Some errs ->
  forall f, In f fields ->
  (ftype f = "text" -> frequired f = true -> forall s,
     assoc_get (fid f) formData = JStr s -> trim s = "" ->
     errs !! fid f = Some (flabel f ++ " is required")) /\
  (ftype f = "email" -> frequired f = false -> assoc_get (fid f) formData = JStr "" ->
     errs !! fid f = None) /\
  (ftype f = "email" -> assoc_get (fid f) formData = JStr "a@b" ->
     errs !! fid f = Some "Please enter a valid email address") /\
  (ftype f = "email" -> assoc_get (fid f) formData = JStr "a@b.com" ->
     errs !! fid f = None).
Proof.
  intros Hnd H f Hin.
  destruct (validateForm_field isNaN_Number relatedResponses fields formData errs f Hnd Hin H)
    as (e0 & e1 & He0 & He1 & ->).
  exact (validate_field_cases formData e0 e1 f He0 He1).
Qed.

End Cases.

Definition sample_fields : list FormField :=
  [mkField "name" "text" "Name" true JUndef JUndef;
   mkField "mail" "email" "Email" false JUndef JUndef;
   mkField "work" "email" "Work email" true JUndef JUndef].

Definition sample_data : list (string * jsval) :=
  [("name", JStr "   "); ("mail", JStr ""); ("work", JStr "a@b")].

Lemma validateForm_cases_witness :
  NoDup (map fid sample_fields) /\
  validateForm (fun _ => false) (fun _ => []) sample_fields sample_data
    = Some (<["work" := "Please enter a valid email address"]>
              (<["name" := "Name is required"]> ∅)) /\
  (<["work" := "Please enter a valid email address"]>
     (<["name" := "Name is required"]> (∅ : gmap string string))) !! "name"
    = Some "Name is required".
Proof.
  assert (Hnd : NoDup (map fid sample_fields))
    by (simpl; repeat constructor; set_solver).
  assert (Hv : validateForm (fun _ => false) (fun _ => []) sample_fields sample_data
    = Some (<["work" := "Please enter a valid email address"]>
              (<["name" := "Name is required"]> ∅))) by reflexivity.
  split; [exact Hnd|]. split; [exact Hv|].
  exact (proj1 (validateForm_cases (fun _ => false) (fun _ => []) sample_fields sample_data _
                  Hnd Hv (mkField "name" "text" "Name" true JUndef JUndef)
                  (or_introl eq_refl))
               eq_refl eq_refl "   " eq_refl eq_refl).
Defined.

End ValidationFacts.

Module ViewFacts.
Import Schema Views.

Section Mismatch.
Variable json_parse : string -> option jsval.
Variable getFormById : jsval -> option form.
Variable getResponseById : jsval -> option response.
Variable Number_of : string -> option Z.

Definition no_response : jsval -> option response := fun _ => None.

(** C6: when the fetched response's [form_id] differs from the id of the
    form it is fetched under ([formId] in the edit view, [fetchedFormId]
    in the show view), both views end in the state they reach when the
    response does not exist: response-not-found set, form found, loading
    done, the same fields, and no response data loaded; only the toast
    text differs ("Response does not belong to this form" instead of
    "Response not found"). *)
Theorem form_id_mismatch_is_not_found (formId responseId : string) (st0 : view_state)
    (frm : form) (resp : response) (responseFormId key : string) :
  formId <> "" -> responseId <> "" ->
  lookup_with_retry Number_of getResponseById responseId = Some resp ->
  toString_opt (resp_form_id resp) = Some responseFormId ->
  (lookup_with_retry Number_of getFormById formId = Some frm ->
   responseFormId <> formId ->
   let s := EditResponse_fetchData json_parse getFormById getResponseById Number_of
              formId responseId st0 in
   let m := EditResponse_fetchData json_parse getFormById no_response Number_of
              formId responseId st0 in
   responseNotFound s = true /\ responseNotFound m = true /\
   formNotFound s = false /\ formNotFound m = false /\
   loading s = false /\ loading m = false /\
   fields s = fields m /\
   loaded_data s = loaded_data st0 /\ loaded_data m = loaded_data st0 /\
   exists pre, toasts s = (pre ++ ["Response does not belong to this form"])%list /\
               toasts m = (pre ++ ["Response not found"])%list) /\
  (show_lookup getFormById Number_of formId = (Some frm, key) ->
   responseFormId <> key ->
   let s := ShowResponse_fetchData json_parse getFormById getResponseById Number_of
              formId responseId st0 in
   let m := ShowResponse_fetchData json_parse getFormById no_response Number_of
              formId responseId st0 in
   responseNotFound s = true /\ responseNotFound m = true /\
   formNotFound s = false /\ formNotFound m = false /\
   loading s = false /\ loading m = false /\
   fields s = fields m /\
   loaded_data s = loaded_data st0 /\ loaded_data m = loaded_data st0 /\
   exists pre, toasts s = (pre ++ ["Response does not belong to this form"])%list /\
               toasts m = (pre ++ ["Response not found"])%list).
Proof.
  intros Hf Hr Hresp Hid. split.
  - intros Hform Hne s m. subst s m.
    unfold EditResponse_fetchData, run_fetch.
    apply String.eqb_neq in Hf, Hr. rewrite Hf, Hr. simpl.
    unfold edit_body. rewrite Hform, Hresp, Hid.
    assert (Hnone : lookup_with_retry Number_of no_response responseId = None)
      by (unfold lookup_with_retry, no_response; by destruct (Number_of responseId)).
    rewrite Hnone.
    apply String.eqb_neq in Hne. rewrite Hne. simpl.
    destruct (read_schema json_parse (form_schema frm)) as [pf []]; simpl;
      (repeat split; [eexists; split; reflexivity]).
  - intros Hform Hne s m. subst s m.
    unfold ShowResponse_fetchData, run_fetch.
    apply String.eqb_neq in Hf, Hr. rewrite Hf, Hr. simpl.
    unfold show_body. rewrite Hform, Hresp, Hid.
    assert (Hnone : lookup_with_retry Number_of no_response responseId = None)
      by (unfold lookup_with_retry, no_response; by destruct (Number_of responseId)).
    rewrite Hnone.
    apply String.eqb_neq in Hne. rewrite Hne. simpl.
    destruct (read_schema json_parse (form_schema frm)) as [pf []]; simpl;
      (repeat split; [eexists; split; reflexivity]).
Qed.

End Mismatch.

Definition sample_form : form := mkForm (JStr "form-1") (JObj [("fields", JArr [])]).
Definition sample_response : response :=
  mkResponse (JStr "form-2") (JObj [("name", JStr "Jane")]) (JStr "2024-01-02T10:00:00Z").

Lemma form_id_mismatch_is_not_found_witness :
  responseNotFound
    (EditResponse_fetchData (fun _ => None) (fun _ => Some sample_form)
       (fun _ => Some sample_response) (fun _ => None) "form-1" "resp-1" initial_view) = true /\
  loaded_data
    (ShowResponse_fetchData (fun _ => None) (fun _ => Some sample_form)
       (fun _ => Some sample_response) (fun _ => None) "form-1" "resp-1" initial_view) = None.
Proof.
  assert (Hf : "form-1" <> "") by discriminate.
  assert (Hr : "resp-1" <> "") by discriminate.
  assert (Hresp : lookup_with_retry (fun _ => None) (fun _ => Some sample_response) "resp-1"
                  = Some sample_response) by reflexivity.
  assert (Hid : toString_opt (resp_form_id sample_response) = Some "form-2") by reflexivity.
  assert (Hne : "form-2" <> "form-1") by discriminate.
  pose proof (form_id_mismatch_is_not_found (fun _ => None) (fun _ => Some sample_form)
                (fun _ => Some sample_response) (fun _ => None) "form-1" "resp-1"
                initial_view sample_form sample_response "form-2" "form-1"
                Hf Hr Hresp Hid) as [HE HS].
  split.
  - exact (proj1 (HE eq_refl Hne)).
  - exact (proj1 (proj2 (proj2 (proj2 (proj2 (proj2 (proj2 (proj2 (HS eq_refl Hne))))))))).
Defined.

(** The reader yields no fields when the stored string does not parse. *)
Lemma read_schema_parse_failure (json_parse : string -> option jsval) (s : string) :
  json_parse s = None -> read_schema json_parse (JStr s) = (JArr [], true).
Proof. intros H. unfold read_schema. by rewrite H. Qed.

(** ... and when the parsed value has no [fields] key. *)
Lemma read_schema_no_fields_key (json_parse : string -> option jsval) (v : jsval) :
  (forall s, v <> JStr s) -> has_key "fields" v = false ->
  parsedFields json_parse v = JArr [].
Proof.
  intros Hs Hk. unfold parsedFields, read_schema.
  destruct v; simpl in *; try done;
    try (exfalso; eapply Hs; reflexivity);
    try (by case_match); by rewrite Hk.
Qed.

Definition bad_schema_form : form := mkForm (JStr "form-1") (JObj [("fields", JNum 5)]).
Definition matching_response : response :=
  mkResponse (JStr "form-1") (JObj [("name", JStr "Jane")]) (JStr "2024-01-02T10:00:00Z").

(** C7 (code_bug): a schema whose [fields] is present but not an array
    ([{"fields": 5}], stored as an object or as a string that parses to
    it) passes the ["fields" in schema] test and the reader yields [5],
    not an empty list.  [parsedFields.forEach] then throws: the edit view
    ends in the form-not-found state with no data loaded, and the
    responses index keeps [5] as its fields and never initialises its
    filters. *)
Theorem schema_fields_not_array_not_recovered :
  (forall json_parse : string -> option jsval,
     parsedFields json_parse (JObj [("fields", JNum 5)]) = JNum 5) /\
  (forall (json_parse : string -> option jsval) (s : string),
     json_parse s = Some (JObj [("fields", JNum 5)]) ->
     parsedFields json_parse (JStr s) = JNum 5) /\
  (let st := EditResponse_fetchData (fun _ => None) (fun _ => Some bad_schema_form)
               (fun _ => Some matching_response) (fun _ => None) "form-1" "resp-1"
               initial_view in
   formNotFound st = true /\ loaded_data st = None /\
   toasts st = ["Error loading data: parsedFields.forEach is not a function"]) /\
  fetchFormDetails (fun _ => None) (Some bad_schema_form) (mkIndex (JArr []) None [])
    = mkIndex (JNum 5) None ["Failed to load form: parsedFields.forEach is not a function"].
Proof.
  split; [reflexivity|]. split.
  - intros json_parse s H. unfold parsedFields, read_schema. by rewrite H.
  - split; [repeat split|]; reflexivity.
Qed.

End ViewFacts.

Module CsvFacts.
Import Csv.

(** Each row is the date, one cell per schema field in order, then the
    response id; every field cell that contains a comma, a line feed or a
    double quote is wrapped in double quotes with its quotes doubled. *)
Lemma row_shape (toLocaleString : jsval -> string) (formFields : list FormField)
    (response : resp) :
  row toLocaleString formFields response =
    (toLocaleString (r_created_at response) :: map (field_cell response) formFields
       ++ [join_elem (r_id response)])%list /\
  Forall (fun f =>
    let v := get (r_data response) (fid f) in
    (v = JNull \/ v = JUndef) \/
    (needs_quoting (js_String v) = true /\
       field_cell response f = String dq (double_quotes (js_String v) ++ String dq EmptyString)) \/
    (needs_quoting (js_String v) = false /\ field_cell response f = js_String v)) formFields.
Proof.
  split; [reflexivity|].
  apply Forall_forall. intros f _. unfold field_cell.
  destruct (get (r_data response) (fid f)) eqn:E; auto;
    destruct (needs_quoting _) eqn:Q; auto.
Qed.

Definition sample_fields : list FormField := [mkField "name" "text" "Name" true JUndef JUndef].
Definition sample_resp : resp :=
  mkResp (JStr "r1") (JObj [("name", JStr "Jane")]) (JStr "2024-01-02T10:00:00Z").

(** C9 (code_bug): the submission date is emitted as [toLocaleString]
    returns it.  In a locale whose format has a comma (en-US:
    "1/2/2024, 10:00:00 AM") the cell is not quoted, and the data line
    splits into four columns under a three-column header. *)
Theorem csv_date_cell_not_escaped (toLocaleString : jsval -> string) :
  toLocaleString (JStr "2024-01-02T10:00:00Z") = "1/2/2024, 10:00:00 AM" ->
  row toLocaleString sample_fields sample_resp = ["1/2/2024, 10:00:00 AM"; "Jane"; "r1"] /\
  needs_quoting "1/2/2024, 10:00:00 AM" = true /\
  csvContent toLocaleString sample_fields [sample_resp] =
    "Submission Date,Name,Response ID" ++ String lf "1/2/2024, 10:00:00 AM,Jane,r1".
Proof.
  intros H. unfold row, csvContent. simpl. rewrite H. repeat split; reflexivity.
Qed.

Lemma csv_date_cell_not_escaped_witness :
  row (fun _ => "1/2/2024, 10:00:00 AM") sample_fields sample_resp
    = ["1/2/2024, 10:00:00 AM"; "Jane"; "r1"].
Proof.
  exact (proj1 (csv_date_cell_not_escaped (fun _ => "1/2/2024, 10:00:00 AM") eq_refl)).
Defined.

End CsvFacts.

(* ----------------------------------------------------------------- *)
(** ** The heap frame of [processRelationFields] *)

Module HeapFacts.
Import Heap.

(** Induction over [jsval] with the hypotheses on the elements of arrays
    and objects. *)
Section JsvalInd.
Variable P : jsval -> Prop.
Hypothesis HUndef : P JUndef.
Hypothesis HNull : P JNull.
Hypothesis HBool : forall b, P (JBool b).
Hypothesis HNum : forall n, P (JNum n).
Hypothesis HStr : forall s, P (JStr s).
Hypothesis HArr : forall l, Forall P l -> P (JArr l).
Hypothesis HObj : forall kvs, Forall (fun kv => P kv.2) kvs -> P (JObj kvs).

Fixpoint jsval_ind' (j : jsval) : P j :=
  match j with
  | JUndef => HUndef
  | JNull => HNull
  | JBool b => HBool b
  | JNum n => HNum n
  | JStr s => HStr s
  | JArr l =>
      HArr l ((fix go (l : list jsval) : Forall P l :=
                 match l with
                 | [] => List.Forall_nil _
                 | x :: r => List.Forall_cons _ _ _ (jsval_ind' x) (go r)
                 end) l)
  | JObj kvs =>
      HObj kvs ((fix go (kvs : list (string * jsval)) : Forall (fun kv => P kv.2) kvs :=
                   match kvs with
                   | [] => List.Forall_nil _
                   | (k, x) :: r => @List.Forall_cons _ (fun kv => P kv.2) (k, x) r (jsval_ind' x) (go r)
                   end) kvs)
  end.
End JsvalInd.

Section Frame.
(** [h0] is the heap when [processRelationFields] is called. *)
Variable h0 : heap.

(** A value owned by the call: a primitive, or a reference to a cell
    allocated during the call. *)
Definition owned (v : val) : Prop := forall l, v = VRef l -> h0 !! l = None.

Definition cell_owned (c : cell) : Prop :=
  match c with
  | CObj ps => Forall (fun kv => owned kv.2) ps
  | CArr es => Forall owned es
  end.

(** Every cell of [h0] is still there with the same contents, and the
    cells allocated since hold only owned values. *)
Definition Inv (h : heap) : Prop :=
  h0 ⊆ h /\ forall l c, h0 !! l = None -> h !! l = Some c -> cell_owned c.

Definition safe {A} (m : M A) (Q : A -> Prop) : Prop :=
  forall h, Inv h -> Inv (m h).2 /\ forall a, (m h).1 = Some a -> Q a.

Lemma Inv_start : Inv h0.
Proof. split; [done|]. intros l c H1 H2. congruence. Qed.

Lemma safe_ret {A} (a : A) (Q : A -> Prop) : Q a -> safe (mret a) Q.
Proof. intros HQ h Hh. split; [done|]. simpl. by intros ? [= <-]. Qed.

Lemma safe_bind {A B} (m : M A) (k : A -> M B) (P : A -> Prop) (Q : B -> Prop) :
  safe m P -> (forall a, P a -> safe (k a) Q) -> safe (m ≫= k) Q.
Proof.
  intros Hm Hk h Hh. unfold mbind, M_bind.
  destruct (Hm h Hh) as [Hh' HP].
  destruct (m h) as [[a|] h'] eqn:E; simpl in *.
  - apply (Hk a (HP a eq_refl) h' Hh').
  - split; [done|discriminate].
Qed.

Lemma safe_weaken {A} (m : M A) (P Q : A -> Prop) :
  safe m P -> (forall a, P a -> Q a) -> safe m Q.
Proof. intros Hm HPQ h Hh. destruct (Hm h Hh). split; eauto. Qed.

Lemma safe_throw {A} (Q : A -> Prop) : safe throw Q.
Proof. intros h Hh. split; [done|discriminate]. Qed.

Lemma safe_try_catch {A} (m handler : M A) (Q : A -> Prop) :
  safe m Q -> safe handler Q -> safe (try_catch m handler) Q.
Proof.
  intros Hm Hc h Hh. unfold try_catch.
  destruct (Hm h Hh) as [Hh' HQ].
  destruct (m h) as [[a|] h'] eqn:E; simpl in *; [split; [done|]|].
  - intros ? [= <-]. auto.
  - by apply Hc.
Qed.

Lemma safe_mapM {A B} (f : A -> M B) (l : list A) (P : A -> Prop) (Q : B -> Prop) :
  Forall P l -> (forall x, P x -> safe (f x) Q) -> safe (mapM_M f l) (Forall Q).
Proof.
  intros Hl Hf. induction Hl as [|x r Hx Hr IH]; simpl.
  - apply safe_ret. constructor.
  - eapply safe_bind; [by apply Hf|]. intros y Hy.
    eapply safe_bind; [exact IH|]. intros ys Hys.
    apply safe_ret. by constructor.
Qed.

Lemma safe_alloc (c : cell) : cell_owned c -> safe (alloc c) owned.
Proof.
  intros Hc h [Hsub Hcells]. unfold alloc. simpl.
  set (l := fresh (dom h)).
  assert (Hl : h !! l = None) by (apply not_elem_of_dom_1, is_fresh).
  assert (Hl0 : h0 !! l = None) by (eapply lookup_weaken_None; eauto).
  split; [split|].
  - by apply insert_subseteq_r.
  - intros l' c' H0 H1. destruct (decide (l = l')) as [<-|Hne].
    + rewrite lookup_insert_eq in H1. by injection H1 as <-.
    + rewrite lookup_insert_ne in H1 by done. eauto.
  - intros ? [= <-] l' [= <-]. done.
Qed.

Lemma prop_get_owned (k : string) (ps : list (string * val)) :
  Forall (fun kv => owned kv.2) ps -> owned (prop_get k ps).
Proof.
  induction 1 as [|[k' v] r Hv Hr IH]; simpl; [by intros ? ?|].
  by destruct (String.eqb k k').
Qed.

Lemma prop_set_owned (k : string) (x : val) (ps : list (string * val)) :
  owned x -> Forall (fun kv => owned kv.2) ps ->
  Forall (fun kv => owned kv.2) (prop_set k x ps).
Proof.
  intros Hx. induction 1 as [|[k' v] r Hv Hr IH]; simpl; [by repeat constructor|].
  destruct (String.eqb k k'); by constructor.
Qed.

Lemma safe_read_prop (v : val) (k : string) : owned v -> safe (read_prop v k) owned.
Proof.
  intros Hv h Hh. destruct v as [| | | | |l]; simpl;
    try (split; [done|]; intros ? [= <-]; by intros ? ?);
    try (split; [done|discriminate]).
  destruct (h !! l) as [[ps|es]|] eqn:E; simpl; (split; [done|]);
    try discriminate; intros ? [= <-].
  - apply prop_get_owned. apply (proj2 Hh l (CObj ps)); [by apply Hv|done].
  - by intros ? ?.
Qed.

Lemma safe_opt_prop (v : val) (k : string) : owned v -> safe (opt_prop v k) owned.
Proof.
  intros Hv. destruct v; try (apply safe_ret; by intros ? ?).
  by apply safe_read_prop.
Qed.

Lemma safe_write_prop (v : val) (k : string) (x : val) :
  owned v -> owned x -> safe (write_prop v k x) (fun _ => True).
Proof.
  intros Hv Hx h [Hsub Hcells]. destruct v as [| | | | |l]; simpl;
    try (split; [by split|discriminate]).
  destruct (h !! l) as [[ps|es]|] eqn:E; simpl; try (split; [by split|discriminate]).
  assert (Hl0 : h0 !! l = None) by (by apply Hv).
  split; [split|done].
  - by apply insert_subseteq_r.
  - intros l' c' H0 H1. destruct (decide (l = l')) as [<-|Hne].
    + rewrite lookup_insert_eq in H1. injection H1 as <-. simpl.
      apply prop_set_owned; [done|]. apply (Hcells l (CObj ps) Hl0 E).
    + rewrite lookup_insert_ne in H1 by done. eauto.
Qed.

Lemma safe_read_cell (v : val) : owned v -> safe (read_cell v) cell_owned.
Proof.
  intros Hv h Hh. destruct v as [| | | | |l]; simpl; try (split; [done|discriminate]).
  destruct (h !! l) as [c|] eqn:E; simpl; (split; [done|]); try discriminate.
  intros ? [= <-]. apply (proj2 Hh l c); [by apply Hv|done].
Qed.

Lemma imap_pairs_owned (g : nat -> string) (es : list val) :
  Forall owned es -> Forall (fun kv => owned kv.2) (imap (fun i x => (g i, x)) es).
Proof.
  intros H. revert g. induction H as [|x r Hx Hr IH]; intros g; simpl; constructor; [done|].
  apply (IH (fun i => g (S i))).
Qed.

Lemma safe_spread (v : val) : owned v -> safe (spread v) (Forall (fun kv => owned kv.2)).
Proof.
  intros Hv h Hh. destruct v as [| | | | |l]; simpl;
    try (split; [done|]; intros ? [= <-]; by constructor).
  assert (Hl0 : h0 !! l = None) by (by apply Hv).
  destruct (h !! l) as [[ps|es]|] eqn:E; simpl; (split; [done|]); try discriminate;
    intros ? [= <-].
  - apply (proj2 Hh l (CObj ps) Hl0 E).
  - apply (imap_pairs_owned (fun i => pretty (N.of_nat i))).
    apply (proj2 Hh l (CArr es) Hl0 E).
Qed.

Lemma owned_prim_undef : owned VUndef. Proof. by intros ? ?. Qed.

Lemma safe_alloc_json (j : jsval) : safe (alloc_json j) owned.
Proof.
  induction j as [| | | | |l Hl|kvs Hkvs] using jsval_ind';
    try (apply safe_ret; by intros ? ?).
  - change (safe (mapM_M alloc_json l ≫= fun vs => alloc (CArr vs)) owned).
    eapply safe_bind.
    + apply (safe_mapM alloc_json l (fun x => safe (alloc_json x) owned) owned Hl).
      done.
    + intros vs Hvs. by apply safe_alloc.
  - change (safe (mapM_M (fun '(k, x) => v ← alloc_json x; mret (k, v)) kvs
                  ≫= fun ps => alloc (CObj ps)) owned).
    eapply safe_bind.
    + apply (safe_mapM _ kvs (fun kv => safe (alloc_json kv.2) owned)
               (fun kv => owned kv.2) Hkvs).
      intros [k x] Hx. simpl in Hx. eapply safe_bind; [exact Hx|].
      intros v Hv. by apply safe_ret.
    + intros ps Hps. by apply safe_alloc.
Qed.

Lemma owned_prim (v : val) : (forall l, v <> VRef l) -> owned v.
Proof. intros Hv l E. by destruct (Hv l E). Qed.

Lemma cell_owned_set (k : string) (x : val) (ps : list (string * val)) :
  owned x -> Forall (fun kv => owned kv.2) ps -> cell_owned (CObj (prop_set k x ps)).
Proof. apply prop_set_owned. Qed.

Lemma safe_stringify (json_print : jsval -> string) (v : val) :
  safe (stringify json_print v) (fun _ => True).
Proof.
  intros h Hh. unfold stringify.
  destruct (to_json _ h v); simpl; (split; [done|]); done.
Qed.

Lemma safe_deep_copy (json_print : jsval -> string)
    (json_parse : string -> option jsval) (v : val) :
  safe (deep_copy json_print json_parse v) owned.
Proof.
  intros h Hh. unfold deep_copy.
  destruct (to_json _ h v) as [j|]; [|by split].
  destruct j; try (destruct (json_parse _) as [j'|]; [by apply safe_alloc_json|by split]).
  by split.
Qed.

(** The postcondition kept for a step, by the type of its result. *)
Ltac post_of A :=
  match A with
  | val => uconstr:(owned)
  | cell => uconstr:(cell_owned)
  | list (string * val) => uconstr:(Forall (fun kv : string * val => owned kv.2))
  | list val => uconstr:(Forall owned)
  | _ => uconstr:(fun _ : A => True)
  end.

Ltac safe_step :=
  match goal with
  | |- safe (@mbind _ _ ?A _ _ _) _ =>
      let P := post_of A in eapply (safe_bind _ _ P); [|intros ? ?]
  | |- safe (mret _) _ => apply safe_ret
  | |- safe throw _ => apply safe_throw
  | |- safe (if _ then _ else _) _ => case_match
  | |- safe (match ?x with _ => _ end) _ => destruct x eqn:?
  | |- safe (read_prop _ _) _ => apply safe_read_prop
  | |- safe (opt_prop _ _) _ => apply safe_opt_prop
  | |- safe (write_prop _ _ _) _ => apply safe_write_prop
  | |- safe (read_cell _) _ => apply safe_read_cell
  | |- safe (spread _) _ => apply safe_spread
  | |- safe (alloc (CObj (prop_set _ _ _))) _ => apply safe_alloc, cell_owned_set
  | |- safe (alloc _) _ => apply safe_alloc
  | |- safe (alloc_json _) _ => apply safe_alloc_json
  | |- safe (stringify _ _) _ => apply safe_stringify
  | |- owned (VRef _) => idtac
  | |- owned _ => apply owned_prim; intros ? ?; discriminate
  | |- True => exact I
  end.

Ltac safe_auto := repeat (safe_step || assumption).

Lemma safe_process_field (json_parse : string -> option jsval)
    (allForms : list jsval) (field : val) :
  owned field -> safe (process_field json_parse allForms field) owned.
Proof. intros Hf. unfold process_field. safe_auto. Qed.

Ltac safe_auto_fields :=
  repeat (safe_step || assumption ||
          match goal with
          | |- safe (mapM_M (process_field _ _) _) _ =>
              eapply (safe_mapM _ _ owned owned); [|intros; by apply safe_process_field]
          end).

Lemma safe_process_schema (json_print : jsval -> string)
    (json_parse : string -> option jsval) (allForms : list jsval) (pd schema : val) :
  owned pd -> owned schema ->
  safe (process_schema json_print json_parse allForms pd schema) (fun _ => True).
Proof. intros Hpd Hs. unfold process_schema. safe_auto_fields. Qed.

Lemma safe_process_body (json_print : jsval -> string)
    (json_parse : string -> option jsval) (allForms : list jsval) (pd : val) :
  owned pd -> safe (process_body json_print json_parse allForms pd) (fun _ => True).
Proof.
  intros Hpd. unfold process_body.
  safe_auto; by apply safe_process_schema.
Qed.

Lemma safe_processRelationFields (json_print : jsval -> string)
    (json_parse : string -> option jsval) (allForms : list jsval) (formData : val) :
  safe (processRelationFields json_print json_parse allForms formData) owned.
Proof.
  unfold processRelationFields.
  eapply safe_bind; [apply safe_deep_copy|]. intros pd Hpd.
  apply safe_try_catch; [|by apply safe_ret].
  eapply safe_bind; [by apply safe_process_body|]. intros _ _. by apply safe_ret.
Qed.

Lemma safe_createForm (json_print : jsval -> string)
    (json_parse : string -> option jsval) (allForms : list jsval) (formData : val) :
  safe (createForm json_print json_parse allForms formData) (fun _ => True).
Proof.
  unfold createForm.
  eapply safe_bind; [apply safe_processRelationFields|]. intros pd Hpd.
  safe_auto.
Qed.

Lemma safe_updateForm (json_print : jsval -> string)
    (json_parse : string -> option jsval) (allForms : list jsval) (formData : val) :
  safe (updateForm json_print json_parse allForms formData) (fun _ => True).
Proof.
  unfold updateForm.
  eapply safe_bind; [apply safe_processRelationFields|]. intros pd Hpd.
  safe_auto.
Qed.

End Frame.

Lemma mapM_weaken {A B} (f g : A -> option B) (l : list A) (r : list B) :
  (forall x y, f x = Some y -> g x = Some y) -> mapM f l = Some r -> mapM g l = Some r.
Proof.
  intros Hfg Hl. apply mapM_Some_2. apply mapM_Some_1 in Hl.
  eapply Forall2_impl; [exact Hl|]. auto.
Qed.

(** The JSON view of a value only reads cells, so it survives heap growth. *)
Lemma to_json_weaken (fuel : nat) (h h' : heap) (v : val) (j : jsval) :
  h ⊆ h' -> to_json fuel h v = Some j -> to_json fuel h' v = Some j.
Proof.
  intros Hsub. revert v j. induction fuel as [|n IH]; intros v j Hj; [done|].
  destruct v as [| | | | |l]; simpl in *; try done.
  destruct (h !! l) as [c|] eqn:E; [|done].
  rewrite (lookup_weaken h h' l c E Hsub).
  destruct c as [ps|es].
  - destruct (mapM _ ps) as [kvs|] eqn:Em; simpl in Hj; [|done].
    erewrite (mapM_weaken _ _ ps kvs); [exact Hj| |exact Em].
    intros [k x] y. simpl.
    destruct (to_json n h x) as [jx|] eqn:Ex; simpl; [|done].
    rewrite (IH x jx Ex). done.
  - destruct (mapM (to_json n h) es) as [js|] eqn:Em; simpl in Hj; [|done].
    erewrite (mapM_weaken _ _ es js); [exact Hj| |exact Em].
    intros x y. apply IH.
Qed.

Lemma frame_of_safe {A} (h : heap) (m : M A) (Q : A -> Prop) :
  safe h m Q -> h ⊆ (m h).2.
Proof. intros Hm. apply (Hm h (Inv_start h)). Qed.

(** C10: [createForm] and [updateForm] never change a cell that existed
    before the call: all the relation processing writes only to objects
    allocated by the deep copy [JSON.parse(JSON.stringify(formData))] or
    later.  So the caller's [formData] (its title, description and schema,
    as [JSON.stringify] would print them) reads the same after the call as
    before, whether the call returns or throws. *)
Theorem formData_not_mutated (json_print : jsval -> string)
    (json_parse : string -> option jsval) (allForms : list jsval)
    (formData : val) (h : heap) (fuel : nat) (j : jsval)
    (Hj : to_json fuel h formData = Some j) :
  h ⊆ (createForm json_print json_parse allForms formData h).2 /\
  to_json fuel (createForm json_print json_parse allForms formData h).2 formData = Some j /\
  h ⊆ (updateForm json_print json_parse allForms formData h).2 /\
  to_json fuel (updateForm json_print json_parse allForms formData h).2 formData = Some j.
Proof.
  pose proof (frame_of_safe h _ _ (safe_createForm h json_print json_parse allForms formData)) as Hc.
  pose proof (frame_of_safe h _ _ (safe_updateForm h json_print json_parse allForms formData)) as Hu.
  repeat split; try done; eapply to_json_weaken; eauto.
Qed.

(** A form with one relation field, whose related form is cached. *)
Definition sample_heap : heap :=
  <[1%positive := CObj [("title", VStr "T"); ("schema", VRef 2%positive)]]>
  (<[2%positive := CObj [("fields", VRef 3%positive)]]>
  (<[3%positive := CArr [VRef 4%positive]]>
  (<[4%positive := CObj [("id", VStr "link"); ("type", VStr "relation");
                         ("relationConfig", VRef 5%positive)]]>
  {[5%positive := CObj [("formId", VStr "f2")]]}))).

Definition sample_json : jsval :=
  JObj [("title", JStr "T");
        ("schema", JObj [("fields", JArr [JObj [("id", JStr "link"); ("type", JStr "relation");
                                               ("relationConfig", JObj [("formId", JStr "f2")])]])])].

(** A [JSON.stringify]/[JSON.parse] pair that round-trips [sample_json]. *)
Definition sample_print (j : jsval) : string := "".
Definition sample_parse (s : string) : option jsval := Some sample_json.

Definition sample_forms : list jsval :=
  [JObj [("id", JStr "f2"); ("title", JStr "Other");
         ("schema", JObj [("fields", JArr [JObj [("id", JStr "name")]])])]].

Lemma formData_not_mutated_witness :
  to_json 10 sample_heap (VRef 1%positive) = Some sample_json /\
  (sample_heap ⊆ (createForm sample_print sample_parse sample_forms (VRef 1%positive) sample_heap).2 /\
   to_json 10 (createForm sample_print sample_parse sample_forms (VRef 1%positive) sample_heap).2 (VRef 1%positive)
     = Some sample_json /\
   sample_heap ⊆ (updateForm sample_print sample_parse sample_forms (VRef 1%positive) sample_heap).2 /\
   to_json 10 (updateForm sample_print sample_parse sample_forms (VRef 1%positive) sample_heap).2 (VRef 1%positive)
     = Some sample_json).
Proof.
  split; [vm_compute; reflexivity|].
  apply formData_not_mutated. vm_compute. reflexivity.
Defined.

End HeapFacts.

(* ----------------------------------------------------------------- *)
(** ** Plain objects *)

Module JSObjectFacts.
Import JSObject.

Section Facts.
Context {A : Type}.
Implicit Types (o : list (string * A)) (k : string) (v : A).

Lemma filter_split {B} (p : B -> bool) (l : list B) :
  (List.filter p l ++ List.filter (fun x => negb (p x)) l)%list ≡ₚ l.
Proof.
  induction l as [|x l IH]; simpl; [done|].
  destruct (p x); simpl.
  - by constructor.
  - rewrite <- Permutation_middle. by constructor.
Qed.

Lemma obj_entries_perm o : obj_entries o ≡ₚ o.
Proof.
  unfold obj_entries. rewrite (merge_sort_Permutation index_le). apply filter_split.
Qed.

Lemma obj_entries_In o kv : In kv (obj_entries o) <-> In kv o.
Proof.
  split; apply Permutation_in; [|symmetry]; apply obj_entries_perm.
Qed.

Lemma obj_entries_NoDup o : List.NoDup (map fst o) -> List.NoDup (map fst (obj_entries o)).
Proof.
  intros H. eapply Permutation_NoDup; [|exact H].
  apply Permutation_map. symmetry. apply obj_entries_perm.
Qed.

Lemma obj_get_In o k v : List.NoDup (map fst o) -> obj_get k o = Some v <-> In (k, v) o.
Proof.
  induction o as [|[k' v'] r IH]; simpl; intros Hnd; [split; [discriminate|done]|].
  inversion Hnd as [|? ? Hk Hr]; subst.
  destruct (String.eqb_spec k k') as [<-|Hne].
  - split; [intros [= <-]; by left|].
    intros [[= <-]|Hin]; [done|].
    exfalso. apply Hk. apply in_map_iff. by exists (k, v).
  - rewrite IH by done. split; [by right|]. intros [[= -> _]|Hin]; [done|done].
Qed.

Lemma obj_get_None o k : obj_get k o = None <-> ~ In k (map fst o).
Proof.
  induction o as [|[k' v'] r IH]; simpl; [tauto|].
  destruct (String.eqb_spec k k') as [<-|Hne]; [split; [discriminate|tauto]|].
  rewrite IH. intuition.
Qed.

Lemma obj_get_entries o k : List.NoDup (map fst o) -> obj_get k (obj_entries o) = obj_get k o.
Proof.
  intros Hnd. pose proof (obj_entries_NoDup o Hnd) as Hnd'.
  destruct (obj_get k o) as [v|] eqn:E.
  - apply obj_get_In; [done|]. apply obj_entries_In. by apply obj_get_In.
  - apply obj_get_None. apply obj_get_None in E. intros Hin. apply E.
    apply in_map_iff in Hin as [[k' v'] [<- Hin]]. apply in_map_iff.
    exists (k', v'). split; [done|]. by apply obj_entries_In.
Qed.

Lemma obj_get_set_eq o k v : obj_get k (obj_set k v o) = Some v.
Proof.
  induction o as [|[k' v'] r IH]; simpl; [by rewrite String.eqb_refl|].
  destruct (String.eqb_spec k k') as [<-|Hne]; simpl.
  - by rewrite String.eqb_refl.
  - apply String.eqb_neq in Hne. by rewrite Hne.
Qed.

Lemma obj_get_set_ne o k k' v : k <> k' -> obj_get k' (obj_set k v o) = obj_get k' o.
Proof.
  intros Hne. induction o as [|[k'' v'] r IH]; simpl.
  - destruct (String.eqb_spec k' k); [congruence|done].
  - destruct (String.eqb_spec k k'') as [<-|Hne']; simpl.
    + destruct (String.eqb_spec k' k); [congruence|done].
    + by destruct (String.eqb k' k'').
Qed.

Lemma obj_set_keys o k v : forall x, In x (map fst (obj_set k v o)) <-> x = k \/ In x (map fst o).
Proof.
  intros x. induction o as [|[k' v'] r IH]; simpl; [naive_solver|].
  destruct (String.eqb_spec k k') as [<-|Hne]; simpl; [naive_solver|].
  rewrite IH. naive_solver.
Qed.

Lemma obj_set_NoDup o k v : List.NoDup (map fst o) -> List.NoDup (map fst (obj_set k v o)).
Proof.
  induction o as [|[k' v'] r IH]; simpl; intros Hnd; [repeat constructor; simpl; tauto|].
  inversion Hnd as [|? ? Hk Hr]; subst.
  destruct (String.eqb_spec k k') as [<-|Hne]; simpl; [by constructor|].
  constructor; [|by apply IH]. rewrite obj_set_keys. intros [->|?]; [done|done].
Qed.

Lemma obj_set_Forall (P : string * A -> Prop) o k v :
  P (k, v) -> Forall (fun kv => P kv) o -> Forall (fun kv => P kv) (obj_set k v o).
Proof.
  intros Hkv. induction 1 as [|[k' v'] r Hx Hr IH]; simpl; [by repeat constructor|].
  destruct (String.eqb_spec k k') as [<-|Hne]; by constructor.
Qed.

Lemma obj_get_Some_In o k v : obj_get k o = Some v -> In (k, v) o.
Proof.
  induction o as [|[k' v'] r IH]; simpl; [discriminate|].
  destruct (String.eqb_spec k k') as [<-|Hne]; [intros [= <-]; by left|].
  intros H. right. by apply IH.
Qed.

End Facts.

(** A [forEach] over the entries of an object that only touches the
    property of the current key, and only as a function of that
    property's previous value and the current entry. *)
Section Local.
Context {B C : Type}.
Variable step : list (string * C) -> string * B -> list (string * C).
Variable F : option C -> B -> option C.
Hypothesis Hother : forall acc k' x k, k <> k' -> obj_get k (step acc (k', x)) = obj_get k acc.
Hypothesis Hself : forall acc k x, obj_get k (step acc (k, x)) = F (obj_get k acc) x.

Lemma fold_local (l : list (string * B)) (a : list (string * C)) (k : string) :
  List.NoDup (map fst l) ->
  obj_get k (fold_left step l a) =
    match obj_get k l with Some x => F (obj_get k a) x | None => obj_get k a end.
Proof.
  revert a. induction l as [|[k' x] r IH]; intros a Hnd; simpl; [done|].
  inversion Hnd as [|? ? Hk Hr]; subst.
  rewrite IH by done.
  destruct (String.eqb_spec k k') as [<-|Hne].
  - assert (obj_get k r = None) as -> by (by apply obj_get_None). apply Hself.
  - destruct (obj_get k r); by rewrite Hother.
Qed.

End Local.

Lemma fold_keep {B C} (step : list (string * C) -> string * B -> list (string * C))
    (P : string * B -> Prop) (l : list (string * B)) (a : list (string * C)) :
  (forall acc kv, P kv -> step acc kv = acc) -> Forall P l -> fold_left step l a = a.
Proof.
  intros Hs Hl. revert a. induction Hl as [|kv r Hkv Hr IH]; intros a; simpl; [done|].
  rewrite Hs by done. apply IH.
Qed.

Lemma fold_NoDup {B C} (step : list (string * C) -> string * B -> list (string * C))
    (l : list (string * B)) (a : list (string * C)) :
  (forall acc kv, List.NoDup (map fst acc) -> List.NoDup (map fst (step acc kv))) ->
  List.NoDup (map fst a) -> List.NoDup (map fst (fold_left step l a)).
Proof.
  intros Hs. revert a. induction l as [|kv r IH]; intros a Ha; simpl; [done|].
  apply IH. by apply Hs.
Qed.

End JSObjectFacts.

(* ----------------------------------------------------------------- *)
(** ** The responses index *)

Module IndexFacts.
Import QueryBuilder JSObject Index JSObjectFacts.

Definition path_field (p : json_path) : string :=
  match p with PText f | PNative f => f end.

(** The filter calls of a query that address the field [k]. *)
Definition ops_on (k : string) (q : list qop) : list qop :=
  List.filter (fun o => match o with QFilter p _ _ => String.eqb (path_field p) k | _ => false end) q.

Lemma ops_on_app (k : string) (q1 q2 : list qop) :
  ops_on k (q1 ++ q2) = (ops_on k q1 ++ ops_on k q2)%list.
Proof.
  induction q1 as [|o r IH]; simpl; [done|]. unfold ops_on in *. simpl.
  case_match; simpl; by rewrite IH.
Qed.

Lemma ops_on_filter_ops (k k' : string) (f : filter) :
  ops_on k (filter_ops k' f) = if String.eqb k' k then filter_ops k' f else [].
Proof.
  unfold filter_ops, jsonPath, ops_on.
  destruct (String.eqb k' k) eqn:E; repeat case_match; simpl; rewrite ?E; done.
Qed.

Lemma ops_on_concat (k : string) (entries : list (string * filter)) :
  ops_on k (concat (map (fun '(k', f) => filter_ops k' f) entries))
  = concat (map (fun '(k', f) => if String.eqb k' k then filter_ops k' f else []) entries).
Proof.
  induction entries as [|[k' f] r IH]; simpl; [done|].
  by rewrite ops_on_app, IH, ops_on_filter_ops.
Qed.

Lemma concat_pick (k : string) (entries : list (string * filter)) :
  List.NoDup (map fst entries) ->
  concat (map (fun '(k', f) => if String.eqb k' k then filter_ops k' f else []) entries)
  = match obj_get k entries with Some f => filter_ops k f | None => [] end.
Proof.
  induction entries as [|[k' f] r IH]; simpl; intros Hnd; [done|].
  inversion Hnd as [|? ? Hk Hr]; subst.
  rewrite IH by done.
  destruct (String.eqb_spec k' k) as [<-|Hne].
  - rewrite String.eqb_refl. assert (obj_get k' r = None) as -> by (by apply obj_get_None).
    by rewrite app_nil_r.
  - assert (String.eqb k k' = false) as -> by (apply String.eqb_neq; congruence). done.
Qed.

Lemma ops_on_build_query (k formId : string) (entries : list (string * filter)) (page size : Z) :
  List.NoDup (map fst entries) ->
  ops_on k (build_query formId entries page size)
  = match obj_get k entries with Some f => filter_ops k f | None => [] end.
Proof.
  intros Hnd. unfold build_query.
  rewrite QueryBuilderFacts.apply_filters_app, !ops_on_app, ops_on_concat, concat_pick by done.
  assert (ops_on k (base_query formId) = []) as -> by reflexivity.
  assert (ops_on k [QRange (page_from page size) (page_to page size)] = []) as -> by reflexivity.
  simpl. by rewrite app_nil_r.
Qed.

Lemma search_filters_NoDup (fs : list (string * filter_entry)) (t : string)
    (a : list (string * filter)) :
  List.NoDup (map fst a) -> List.NoDup (map fst (search_filters fs t a)).
Proof.
  apply fold_NoDup. intros acc [k e] H. simpl. case_match; [by apply obj_set_NoDup|done].
Qed.

Lemma field_filters_NoDup (fs : list (string * filter_entry)) (a : list (string * filter)) :
  List.NoDup (map fst a) -> List.NoDup (map fst (field_filters fs a)).
Proof.
  apply fold_NoDup. intros acc [k e] H. simpl.
  repeat case_match; try done; by apply obj_set_NoDup.
Qed.

Lemma activeFilters_NoDup (fs : list (string * filter_entry)) (term : string) :
  List.NoDup (map fst (activeFilters fs term)).
Proof.
  unfold activeFilters. apply field_filters_NoDup.
  case_match; [apply search_filters_NoDup|]; constructor.
Qed.

(** The filter calls the page sends for field [k] are the ones of its
    entry in [activeFilters]. *)
Lemma ops_on_fetch (k formId : string) (st : index_view) :
  ops_on k (fetchResponses_query formId st)
  = match obj_get k (activeFilters (filters st) (searchTerm st)) with
    | Some f => filter_ops k f
    | None => []
    end.
Proof.
  unfold fetchResponses_query.
  rewrite ops_on_build_query by (apply obj_entries_NoDup, activeFilters_NoDup).
  by rewrite obj_get_entries by apply activeFilters_NoDup.
Qed.

Definition text_like (t : jsval) : bool :=
  type_is t "text" || type_is t "email" || type_is t "textarea".

(** The entry of [activeFilters] for a field, from the field's filter
    state alone. *)
Definition active_entry (term : string) (e : filter_entry) : option filter :=
  let s := if negb (String.eqb (trim term) "") && text_like (fe_type e)
           then Some (mkFilter "contains" (JStr (trim term))) else None in
  if skipped e then s
  else if negb (match s with Some _ => true | None => false end) ||
          negb (type_is (fe_type e) "text")
  then Some (field_filter e) else s.

Lemma search_part_get (fs : list (string * filter_entry)) (term k : string) :
  List.NoDup (map fst fs) ->
  obj_get k (if negb (String.eqb (trim term) "") then search_filters fs (trim term) [] else [])
  = match obj_get k fs with
    | Some e => if negb (String.eqb (trim term) "") && text_like (fe_type e)
                then Some (mkFilter "contains" (JStr (trim term))) else None
    | None => None
    end.
Proof.
  intros Hnd. pose proof (obj_entries_NoDup fs Hnd) as Hnd'.
  destruct (negb (String.eqb (trim term) "")) eqn:Ht; simpl.
  - unfold search_filters.
    rewrite (fold_local _
      (fun old e => if text_like (fe_type e)
                    then Some (mkFilter "contains" (JStr (trim term))) else old)); [| | |done].
    3:{ intros acc k0 e'. simpl. unfold text_like. case_match; [by rewrite obj_get_set_eq|done]. }
    2:{ intros acc k' e' k0 Hne. simpl. case_match; [by rewrite obj_get_set_ne|done]. }
    rewrite obj_get_entries by done. simpl.
    destruct (obj_get k fs); [|done]. by case_match.
  - by case_match.
Qed.

Lemma activeFilters_get (fs : list (string * filter_entry)) (term k : string) :
  List.NoDup (map fst fs) ->
  obj_get k (activeFilters fs term)
  = match obj_get k fs with Some e => active_entry term e | None => None end.
Proof.
  intros Hnd. pose proof (obj_entries_NoDup fs Hnd) as Hnd'.
  unfold activeFilters, field_filters.
  rewrite (fold_local _
    (fun old e => if skipped e then old
                  else if negb (match old with Some _ => true | None => false end) ||
                          negb (type_is (fe_type e) "text")
                  then Some (field_filter e) else old)); [| | |done].
  3:{ intros acc k0 e. simpl. repeat case_match; try done; by rewrite obj_get_set_eq. }
  2:{ intros acc k' e k0 Hne. simpl. repeat case_match; try done; by rewrite obj_get_set_ne. }
  rewrite obj_get_entries, search_part_get by done.
  destruct (obj_get k fs) as [e|]; done.
Qed.

Lemma filters_cleared (st : index_view) :
  Forall (fun kv => fe_value kv.2 = JStr "") (filters (clearFilters st)).
Proof.
  unfold clearFilters. simpl.
  assert (forall ks acc, Forall (fun kv : string * filter_entry => fe_value kv.2 = JStr "") acc ->
    Forall (fun kv : string * filter_entry => fe_value kv.2 = JStr "")
      (fold_left (fun acc fieldId =>
         match obj_get fieldId (filters st) with
         | Some e => obj_set fieldId (mkEntry (JStr "") (fe_label e) (fe_type e)) acc
         | None => obj_set fieldId (mkEntry (JStr "") JUndef JUndef) acc
         end) ks acc)) as H.
  { induction ks as [|k r IH]; intros a Ha; simpl; [done|].
    apply IH. case_match; by apply (obj_set_Forall (fun kv => fe_value kv.2 = JStr "")). }
  apply H. constructor.
Qed.

Ltac nodup_keys := repeat constructor; simpl; intuition discriminate.

Lemma str_neq (a b : string) : a <> b -> String.eqb a b = false.
Proof. apply String.eqb_neq. Qed.

(** X1: after [clearFilters], [fetchResponses] sends the query of the
    first page with no filter at all: every value is emptied and the
    search term is cleared. *)
Theorem clearFilters_then_fetch_unfiltered (formId : string) (st : index_view) :
  fetchResponses_query formId (clearFilters st)
  = (base_query formId ++ [QRange 0 (pageSize st - 1)])%list.
Proof.
  unfold fetchResponses_query.
  assert (activeFilters (filters (clearFilters st)) (searchTerm (clearFilters st)) = []) as ->.
  { unfold activeFilters. change (searchTerm (clearFilters st)) with "".
    pose proof (filters_cleared st) as Hc.
    remember (filters (clearFilters st)) as cf eqn:Hcf. clear Hcf.
    assert (trim "" = "") as -> by reflexivity. simpl.
    unfold field_filters. apply (fold_keep _ (fun kv => skipped kv.2 = true)).
    - intros acc [k e] H. simpl in *. by rewrite H.
    - apply List.Forall_forall. intros [k e] Hin. apply (proj1 (obj_entries_In _ _)) in Hin.
      rewrite List.Forall_forall in Hc.
      apply Hc in Hin. simpl in *. unfold skipped. by rewrite Hin. }
  change (obj_entries (@nil (string * filter))) with (@nil (string * filter)).
  change (currentPage (clearFilters st)) with 1%Z.
  change (pageSize (clearFilters st)) with (pageSize st).
  unfold build_query, apply_filters, page_from, page_to. simpl. repeat f_equal; lia.
Qed.

(** X2: with a non-blank search term, a field of type text is searched
    for the trimmed term ([ilike %term%] on its text path), whatever its
    own filter value: the field's own value never replaces the search
    entry of a text field. *)
Theorem search_term_overrides_text_field (formId k t : string) (st : index_view)
    (e : filter_entry)
    (Hnd : List.NoDup (map fst (filters st))) (He : obj_get k (filters st) = Some e)
    (Htype : fe_type e = JStr "text") (Hs : trim (searchTerm st) = t) (Ht : t <> "") :
  ops_on k (fetchResponses_query formId st) = [QFilter (PText k) "ilike" (JStr ("%" ++ t ++ "%"))].
Proof.
  rewrite ops_on_fetch, activeFilters_get, He by done.
  unfold active_entry. rewrite Hs, Htype, (str_neq t "") by done.
  simpl. destruct (skipped e); simpl;
    unfold filter_ops, filter_applied, jsonPath, isTextSearch; simpl;
    rewrite (str_neq t "") by done; reflexivity.
Qed.

(** X3: an email or textarea field with a set value is searched for that
    value, whatever the search term: its own entry replaces the search
    entry. *)
Theorem email_textarea_own_value_wins (formId k v : string) (st : index_view)
    (e : filter_entry)
    (Hnd : List.NoDup (map fst (filters st))) (He : obj_get k (filters st) = Some e)
    (Htype : fe_type e = JStr "email" \/ fe_type e = JStr "textarea")
    (Hv : fe_value e = JStr v) (Hv1 : v <> "") (Hv2 : v <> "__all__") :
  ops_on k (fetchResponses_query formId st) = [QFilter (PText k) "ilike" (JStr ("%" ++ v ++ "%"))].
Proof.
  rewrite ops_on_fetch, activeFilters_get, He by done.
  unfold active_entry, skipped, field_filter, getImplicitOperator. rewrite Hv. simpl.
  rewrite (str_neq v ""), (str_neq v "__all__") by done. simpl.
  destruct Htype as [Ht|Ht]; rewrite Ht; simpl;
    destruct (negb (String.eqb (trim (searchTerm st)) "")); simpl;
    unfold filter_ops, filter_applied, jsonPath, isTextSearch; simpl;
    rewrite (str_neq v "") by done; reflexivity.
Qed.

(** X4: a checkbox filter set to any value but blank, [__all__] or
    [false] sends [eq true] on the native JSON path. *)
Theorem checkbox_filter_sends_true (formId k v : string) (st : index_view) (e : filter_entry)
    (Hnd : List.NoDup (map fst (filters st))) (He : obj_get k (filters st) = Some e)
    (Htype : fe_type e = JStr "checkbox") (Hv : fe_value e = JStr v)
    (Hv1 : v <> "") (Hv2 : v <> "__all__") (Hv3 : v <> "false") :
  ops_on k (fetchResponses_query formId st) = [QFilter (PNative k) "eq" (JBool true)].
Proof.
  rewrite ops_on_fetch, activeFilters_get, He by done.
  unfold active_entry, skipped, field_filter, getImplicitOperator. rewrite Hv, Htype. simpl.
  rewrite (str_neq v ""), (str_neq v "__all__"), (str_neq v "false") by done. simpl.
  destruct (String.eqb_spec v "true") as [->|Hne]; simpl; rewrite ?orb_true_r; simpl;
    unfold filter_ops, filter_applied, jsonPath, isTextSearch; simpl;
    rewrite ?(str_neq v "") by done; reflexivity.
Qed.

(** X5: a field of any other type with a set string value sends an
    exact [eq] on the text path. *)
Theorem other_fields_exact_text_match (formId k t v : string) (st : index_view)
    (e : filter_entry)
    (Hnd : List.NoDup (map fst (filters st))) (He : obj_get k (filters st) = Some e)
    (Htype : fe_type e = JStr t) (Ht1 : t <> "text") (Ht2 : t <> "email")
    (Ht3 : t <> "textarea") (Ht4 : t <> "checkbox")
    (Hv : fe_value e = JStr v) (Hv1 : v <> "") (Hv2 : v <> "__all__") :
  ops_on k (fetchResponses_query formId st) = [QFilter (PText k) "eq" (JStr v)].
Proof.
  rewrite ops_on_fetch, activeFilters_get, He by done.
  unfold active_entry, skipped, field_filter, getImplicitOperator, text_like, type_is.
  rewrite Hv, Htype. simpl.
  rewrite (str_neq v ""), (str_neq v "__all__"), (str_neq t "text"), (str_neq t "email"),
    (str_neq t "textarea"), (str_neq t "checkbox") by done. simpl.
  rewrite andb_false_r. simpl.
  destruct (String.eqb t "select" || String.eqb t "radio" || String.eqb t "dropdown");
    simpl; unfold filter_ops, filter_applied, jsonPath, isTextSearch; simpl;
    rewrite (str_neq v "") by done; reflexivity.
Qed.

(** X6: choosing [__all__] for a field removes that field from the query
    (when no search term is active) and goes back to page 1. *)
Theorem all_placeholder_clears_field_filter (formId k : string) (st : index_view)
    (Hnd : List.NoDup (map fst (filters st))) (Hs : trim (searchTerm st) = "") :
  ops_on k (fetchResponses_query formId (handleFilterChange k (JStr "__all__") st)) = [] /\
  currentPage (handleFilterChange k (JStr "__all__") st) = 1%Z.
Proof.
  split; [|done].
  rewrite ops_on_fetch, activeFilters_get.
  2:{ apply obj_set_NoDup, obj_entries_NoDup, Hnd. }
  change (filters (handleFilterChange k (JStr "__all__") st)) with
    (obj_set k (match obj_get k (filters st) with
                | Some e => mkEntry (JStr "") (fe_label e) (fe_type e)
                | None => mkEntry (JStr "") JUndef JUndef
                end) (obj_entries (filters st))).
  change (searchTerm (handleFilterChange k (JStr "__all__") st)) with (searchTerm st).
  rewrite obj_get_set_eq. unfold active_entry. rewrite Hs.
  by destruct (obj_get k (filters st)).
Qed.

(** A filter state with a text, an email, a checkbox and a select field. *)
Definition sample_index : index_view :=
  mkIndexView
    [("name", mkEntry (JStr "x") (JStr "Name") (JStr "text"));
     ("mail", mkEntry (JStr "a@b") (JStr "Mail") (JStr "email"));
     ("ok", mkEntry (JStr "true") (JStr "OK") (JStr "checkbox"));
     ("color", mkEntry (JStr "red") (JStr "Color") (JStr "select"))]
    "  jo " 2 10 [] 0 [].

Lemma search_term_overrides_text_field_witness :
  ops_on "name" (fetchResponses_query "f" sample_index)
  = [QFilter (PText "name") "ilike" (JStr ("%" ++ "jo" ++ "%"))].
Proof.
  apply (search_term_overrides_text_field "f" "name" "jo" sample_index
           (mkEntry (JStr "x") (JStr "Name") (JStr "text"))); try reflexivity.
  - nodup_keys.
  - discriminate.
Defined.

Lemma email_textarea_own_value_wins_witness :
  ops_on "mail" (fetchResponses_query "f" sample_index)
  = [QFilter (PText "mail") "ilike" (JStr ("%" ++ "a@b" ++ "%"))].
Proof.
  apply (email_textarea_own_value_wins "f" "mail" "a@b" sample_index
           (mkEntry (JStr "a@b") (JStr "Mail") (JStr "email"))); try reflexivity;
    try discriminate.
  - nodup_keys.
  - left. reflexivity.
Defined.

Lemma checkbox_filter_sends_true_witness :
  ops_on "ok" (fetchResponses_query "f" sample_index) = [QFilter (PNative "ok") "eq" (JBool true)].
Proof.
  apply (checkbox_filter_sends_true "f" "ok" "true" sample_index
           (mkEntry (JStr "true") (JStr "OK") (JStr "checkbox"))); try reflexivity;
    try discriminate.
  nodup_keys.
Defined.

Lemma other_fields_exact_text_match_witness :
  ops_on "color" (fetchResponses_query "f" sample_index) = [QFilter (PText "color") "eq" (JStr "red")].
Proof.
  apply (other_fields_exact_text_match "f" "color" "select" "red" sample_index
           (mkEntry (JStr "red") (JStr "Color") (JStr "select"))); try reflexivity;
    try discriminate.
  nodup_keys.
Defined.

Definition sample_index_nosearch : index_view :=
  mkIndexView (filters sample_index) "" 2 10 [] 0 [].

Lemma all_placeholder_clears_field_filter_witness :
  ops_on "color" (fetchResponses_query "f" (handleFilterChange "color" (JStr "__all__") sample_index_nosearch)) = [] /\
  currentPage (handleFilterChange "color" (JStr "__all__") sample_index_nosearch) = 1%Z.
Proof.
  apply all_placeholder_clears_field_filter; [nodup_keys|reflexivity].
Defined.

End IndexFacts.

(* ================================================================= *)
(** ** Deleting a response *)

Module DeleteFacts.
Import Csv JSObject Index JSObjectFacts.

Lemma length_append (s1 s2 : string) :
  String.length (s1 ++ s2)%string = String.length s1 + String.length s2.
Proof. induction s1; simpl; auto. Qed.

Lemma substring_0_length (n : nat) (s : string) : String.length (substring 0 n s) <= n.
Proof.
  revert n. induction s as [|c s IH]; intros [|n]; simpl; try lia.
  specialize (IH n). lia.
Qed.

Lemma quoted_identifier_length (v : jsval) (i : string) :
  quoted_identifier v = Some i -> String.length i <= 44.
Proof.
  unfold quoted_identifier. case_match; [|discriminate]. intros [= <-].
  simpl. rewrite !length_append. simpl.
  pose proof (substring_0_length 30 (js_String v)).
  destruct (Nat.ltb 30 _); simpl; lia.
Qed.

Lemma quoted_identifier_not_default (v : jsval) (i : string) :
  quoted_identifier v = Some i -> i <> "this response".
Proof.
  unfold quoted_identifier. case_match; [|discriminate]. intros [= <-]. discriminate.
Qed.

Lemma object_values_None (v : jsval) : object_values v = None <-> v = JUndef \/ v = JNull.
Proof. destruct v; simpl; naive_solver. Qed.

Lemma strict_eq_prim_str (v : jsval) (s : string) :
  strict_eq_prim v (JStr s) = true <-> v = JStr s.
Proof.
  destruct v; simpl; try (split; congruence).
  rewrite String.eqb_eq. split; congruence.
Qed.

(** X7: the identifier the delete dialog shows is never longer than 44
    characters: the first value of the response is cut to 30 characters
    (plus an ellipsis) inside [response "..."]. *)
Theorem delete_identifier_bounded (responseData : jsval) :
  String.length (delete_identifier responseData) <= 44.
Proof.
  unfold delete_identifier.
  destruct (object_values responseData); [|simpl; lia].
  destruct (quoted_identifier _) eqn:Q; [by eapply quoted_identifier_length|simpl; lia].
Qed.

(** X8: [extractResopnseIdentifier] throws exactly when the response or
    its data is [null] or [undefined]; otherwise it gives the dialog's
    identifier, except that its default is [Response <id>] instead of
    [this response]. *)
Theorem extract_identifier_vs_dialog (response : jsval) :
  (extractResopnseIdentifier response = None <->
     response = JUndef \/ response = JNull \/
     get response "data" = JUndef \/ get response "data" = JNull) /\
  match extractResopnseIdentifier response with
  | Some i =>
      if String.eqb (delete_identifier (get response "data")) "this response"
      then i = ("Response " ++ js_String (get response "id"))%string
      else i = delete_identifier (get response "data")
  | None => True
  end.
Proof.
  assert (forall r, r <> JUndef -> r <> JNull ->
    extractResopnseIdentifier r =
      match object_values (get r "data") with
      | None => None
      | Some vs =>
          match quoted_identifier (hd JUndef vs) with
          | Some i => Some i
          | None => Some ("Response " ++ js_String (get r "id"))%string
          end
      end) as Hex by (intros []; done).
  assert ((response = JUndef \/ response = JNull) \/ (response <> JUndef /\ response <> JNull))
    as [Hn|[Hn1 Hn2]] by (destruct response; naive_solver).
  { destruct Hn as [->| ->]; simpl; split; naive_solver. }
  rewrite Hex by done.
  unfold delete_identifier.
  destruct (object_values (get response "data")) as [vs|] eqn:E.
  - split.
    + split; [case_match; discriminate|].
      intros [?|[?|Hd]]; [naive_solver|naive_solver|].
      apply object_values_None in Hd. congruence.
    + destruct (quoted_identifier (hd JUndef vs)) as [i|] eqn:Q.
      * rewrite (IndexFacts.str_neq i "this response") by (by eapply quoted_identifier_not_default). done.
      * done.
  - apply object_values_None in E. split; [naive_solver|done].
Qed.

(** X9: confirming the deletion of the response picked by
    [handleDeleteClick], when the backend call succeeds, removes every
    listed response with that id, decrements the total by one (whether
    or not such a response was listed), and closes the dialog. *)
Theorem delete_click_confirm_ok (deleteResponse : string -> call_result) (id : string)
    (responseData : jsval) (st : delete_state) (Hok : deleteResponse id = Ok) :
  let st' := handleDeleteConfirm deleteResponse (handleDeleteClick id responseData st) in
  (forall r, In r (del_responses st') <-> In r (del_responses st) /\ get r "id" <> JStr id) /\
  del_totalCount st' = (del_totalCount st - 1)%Z /\
  responseToDelete st' = None /\ deletingId st' = None /\ deleteDialogOpen st' = false.
Proof.
  unfold handleDeleteConfirm, handleDeleteClick. simpl. rewrite Hok. simpl.
  split; [|done]. intros r. rewrite List.filter_In, negb_true_iff.
  split; intros [Hin Hid]; split; try done.
  - intros Heq. apply strict_eq_prim_str in Heq. congruence.
  - destruct (strict_eq_prim (get r "id") (JStr id)) eqn:E; [|done].
    apply strict_eq_prim_str in E. congruence.
Qed.

(** X10: when the backend call fails, the list and the total are kept,
    the failure is reported with the backend's message, and the dialog
    is closed. *)
Theorem delete_click_confirm_err (deleteResponse : string -> call_result) (id msg : string)
    (responseData : jsval) (st : delete_state) (Herr : deleteResponse id = Err msg) :
  let st' := handleDeleteConfirm deleteResponse (handleDeleteClick id responseData st) in
  del_responses st' = del_responses st /\ del_totalCount st' = del_totalCount st /\
  del_toasts st' = (del_toasts st ++ [("Failed to delete response: " ++ msg)%string])%list /\
  responseToDelete st' = None /\ deleteDialogOpen st' = false.
Proof.
  unfold handleDeleteConfirm, handleDeleteClick. simpl. rewrite Herr. done.
Qed.

Definition sample_delete : delete_state :=
  mkDelete [JObj [("id", JStr "a")]; JObj [("id", JStr "b")]] 2 None None false [].

Lemma delete_click_confirm_ok_witness :
  del_totalCount (handleDeleteConfirm (fun _ => Ok)
                    (handleDeleteClick "zz" (JObj []) sample_delete)) = 1%Z.
Proof.
  exact (proj1 (proj2 (delete_click_confirm_ok (fun _ => Ok) "zz" (JObj []) sample_delete
                         eq_refl))).
Defined.

Lemma delete_click_confirm_err_witness :
  del_responses (handleDeleteConfirm (fun _ => Err "timeout")
                   (handleDeleteClick "a" (JObj []) sample_delete))
  = del_responses sample_delete.
Proof.
  exact (proj1 (delete_click_confirm_err (fun _ => Err "timeout") "a" "timeout" (JObj [])
                  sample_delete eq_refl)).
Defined.

End DeleteFacts.

(* ================================================================= *)
(** ** Reading back an exported cell *)

Module CsvReadFacts.
Import Csv CsvRead.

Lemma list_ascii_append (s1 s2 : string) :
  list_ascii_of_string (s1 ++ s2)%string
  = (list_ascii_of_string s1 ++ list_ascii_of_string s2)%list.
Proof. induction s1 as [|c s1 IH]; simpl; [done|]. by rewrite IH. Qed.

Lemma undouble_double_quotes (s : string) :
  undouble (list_ascii_of_string (double_quotes s)) = list_ascii_of_string s.
Proof.
  induction s as [|c s IH]; simpl; [done|].
  destruct (Ascii.eqb_spec c dq) as [->|Hne]; simpl.
  - rewrite IH. done.
  - destruct (list_ascii_of_string (double_quotes s)) as [|d r] eqn:L.
    + simpl in IH. by rewrite <- IH.
    + rewrite <- IH. apply (f_equal (cons c)) in IH.
      replace (Ascii.eqb c dq) with false by (symmetry; by apply Ascii.eqb_neq).
      done.
Qed.

(** X11: reading an exported field cell back as an RFC 4180 cell gives
    [String(value)]: the quoting of [field_cell] loses nothing. *)
Theorem field_cell_read_back (response : resp) (field : FormField)
    (Hnull : get (r_data response) (fid field) <> JNull)
    (Hundef : get (r_data response) (fid field) <> JUndef) :
  read_cell (field_cell response field) = js_String (get (r_data response) (fid field)).
Proof.
  assert (forall s, read_cell (if needs_quoting s
                               then String dq (double_quotes s ++ String dq EmptyString)
                               else s) = s) as Hs.
  { intros s. destruct (needs_quoting s) eqn:Q.
    - unfold read_cell. simpl list_ascii_of_string.
      rewrite list_ascii_append. simpl.
      rewrite rev_unit. simpl. rewrite removelast_last, undouble_double_quotes.
      apply string_of_list_ascii_of_string.
    - unfold needs_quoting in Q. apply orb_false_iff in Q as [_ Q].
      unfold includes_char in Q.
      unfold read_cell. destruct (list_ascii_of_string s) as [|c r] eqn:L; [done|].
      cbn [existsb] in Q. apply orb_false_iff in Q as [Q _].
      rewrite Ascii.eqb_sym, Q. done. }
  unfold field_cell.
  destruct (get (r_data response) (fid field)); try congruence; apply Hs.
Qed.

Definition sample_note_field : FormField := mkField "note" "textarea" "Note" false JUndef JUndef.
Definition sample_note : resp :=
  mkResp (JStr "r2") (JObj [("note", JStr ("a, " ++ String dq "b"))]) JUndef.

Lemma field_cell_read_back_witness :
  read_cell (field_cell sample_note sample_note_field) = ("a, " ++ String dq "b")%string.
Proof.
  exact (field_cell_read_back sample_note sample_note_field ltac:(discriminate)
           ltac:(discriminate)).
Defined.

End CsvReadFacts.

(* ================================================================= *)
(** ** The forms cache *)

Module FormsCacheFacts.
Import FormsCache.

Lemma cache_hit (answer : option jsval) (s : service) :
  formsCache s <> [] -> getAllForms answer s = (formsCache s, s).
Proof.
  unfold getAllForms. destruct (formsCache s) as [|x r]; [done|]. done.
Qed.

Definition sample_forms_answer : jsval :=
  JObj [("formsCollection",
         JObj [("edges", JArr [JObj [("node", JObj [("id", JStr "f1")])]])])].



(** X13: after a [deleteForm] that returned, [getAllForms] queries the
    backend again: it gives the fresh list, or [[]] when that query
    fails. *)
Theorem deleteForm_then_getAllForms_refetches (result : jsval) (answer : option jsval)
    (s : service) :
  fst (getAllForms answer (snd (deleteForm (Some result) s))) =
    match answer with
    | Some r => match edges_nodes r with Some forms => forms | None => [] end
    | None => []
    end.
Proof.
  unfold getAllForms, deleteForm, getForms. simpl.
  destruct answer as [r|]; [|done]. by destruct (edges_nodes r).
Qed.

(** X14: a [getForms] that returned a non-empty list fills the cache:
    the next [getAllForms] returns that list without a new query. *)
Theorem getForms_fills_cache (answer answer' : option jsval) (s s' : service)
    (forms : list jsval)
    (H : getForms answer s = (Some forms, s')) (Hne : forms <> []) :
  getAllForms answer' s' = (forms, s').
Proof.
  unfold getForms in H.
  destruct answer as [r|]; [|discriminate].
  destruct (edges_nodes r); [|discriminate]. injection H as <- <-.
  by apply cache_hit.
Qed.

Lemma getForms_fills_cache_witness :
  getAllForms None (mkService [JObj [("id", JStr "f1")]]) =
    ([JObj [("id", JStr "f1")]], mkService [JObj [("id", JStr "f1")]]).
Proof.
  apply (getForms_fills_cache (Some sample_forms_answer) None (mkService []));
    [reflexivity | discriminate].
Defined.

End FormsCacheFacts.

(* ================================================================= *)
(** ** The relation cell of the responses table *)

Module RelationDisplayFacts.
Import JSObject Index JSObjectFacts.

(** X15: when the selected id is not among the loaded responses of the
    related form, the cell shows the display value of the first loaded
    response (in [Object.values] order), which belongs to another id. *)
Theorem relation_display_falls_back_to_first
    (relatedFormData : list (string * list (string * related_entry)))
    (field : FormField) (value : jsval) (formData : list (string * related_entry))
    (k : string) (e : related_entry) (rest : list (string * related_entry))
    (Hv : truthy value = true) (Hf : truthy (rc_formId field) = true)
    (Hd : obj_get (js_String (rc_formId field)) relatedFormData = Some formData)
    (Hmiss : obj_get (js_String value) formData = None)
    (Hfirst : obj_entries formData = (k, e) :: rest) :
  getRelationDisplayValue relatedFormData field value = Some (displayValue e) /\
  k <> js_String value.
Proof.
  unfold getRelationDisplayValue. rewrite Hv, Hf. simpl.
  rewrite Hd, Hmiss. unfold obj_values. rewrite Hfirst. split; [done|].
  intros ->. apply obj_get_None in Hmiss. apply Hmiss.
  apply in_map_iff. exists (js_String value, e). split; [done|].
  apply (proj1 (obj_entries_In _ _)). rewrite Hfirst. by left.
Qed.

Definition sample_related : list (string * list (string * related_entry)) :=
  [("f1", [("abc", mkRelated "Ann" JUndef); ("10", mkRelated "Bob" JUndef)])].

Definition sample_relation_field : FormField :=
  mkField "owner" "relation" "Owner" false (JStr "f1") (JStr "name").

Lemma relation_display_falls_back_to_first_witness :
  getRelationDisplayValue sample_related sample_relation_field (JStr "zzz") = Some "Bob".
Proof.
  exact (proj1 (relation_display_falls_back_to_first sample_related sample_relation_field
    (JStr "zzz") [("abc", mkRelated "Ann" JUndef); ("10", mkRelated "Bob" JUndef)]
    "10" (mkRelated "Bob" JUndef) [("abc", mkRelated "Ann" JUndef)]
    eq_refl eq_refl eq_refl eq_refl ltac:(vm_compute; reflexivity))).
Defined.

End RelationDisplayFacts.

(* ================================================================= *)
(** ** More of [validateForm] *)

Module ValidationExtraFacts.
Import Validation.

Section Extra.
Variable isNaN_Number : string -> bool.
Variable relatedResponses : string -> list jsval.

Lemma validate_field_throws (formData : list (string * jsval)) (errs : gmap string string)
    (f : FormField)
    (Ht : ftype f = "email" \/ ftype f = "number")
    (Htr : truthy (assoc_get (fid f) formData) = true)
    (Hns : is_string (assoc_get (fid f) formData) = false) :
  validate_field isNaN_Number relatedResponses formData errs f = None.
Proof.
  unfold validate_field. cbv zeta.
  destruct (assoc_get (fid f) formData); try discriminate Hns; rewrite Htr;
    destruct Ht as [-> | ->]; reflexivity.
Qed.

Lemma validate_fields_throws (formData : list (string * jsval)) (fields : list FormField)
    (f : FormField) (Hin : In f fields)
    (Hf : forall errs, validate_field isNaN_Number relatedResponses formData errs f = None) :
  forall errs, validate_fields isNaN_Number relatedResponses formData errs fields = None.
Proof.
  induction fields as [|g r IH]; simpl; [done|]. intros errs.
  destruct Hin as [<-|Hin].
  - by rewrite Hf.
  - destruct (validate_field _ _ _ _ g); [by apply IH|done].
Qed.

Lemma validate_field_keys (formData : list (string * jsval)) (errs errs' : gmap string string)
    (f : FormField) :
  validate_field isNaN_Number relatedResponses formData errs f = Some errs' ->
  forall k, is_Some (errs' !! k) -> is_Some (errs !! k) \/ k = fid f.
Proof.
  intros Hv k Hk. unfold validate_field in Hv. cbv zeta in Hv.
  repeat (case_match; simplify_eq/=);
    repeat (rewrite lookup_insert_is_Some in Hk; destruct Hk as [?|[_ Hk]]; [by right|]);
    by left.
Qed.

Lemma validate_fields_keys (formData : list (string * jsval)) (fields : list FormField) :
  forall errs errs', validate_fields isNaN_Number relatedResponses formData errs fields = Some errs' ->
  forall k, is_Some (errs' !! k) -> is_Some (errs !! k) \/ exists f, In f fields /\ fid f = k.
Proof.
  induction fields as [|g r IH]; simpl; intros errs errs' Hv k Hk.
  - simplify_eq. by left.
  - destruct (validate_field _ _ _ errs g) as [e1|] eqn:E; [|discriminate].
    destruct (IH e1 errs' Hv k Hk) as [H1|[f [Hin Hfk]]].
    + destruct (validate_field_keys _ _ _ _ E k H1) as [H2|H2]; [by left|].
      right. exists g. by split; [left|].
    + right. exists f. by split; [right|].
Qed.

Lemma validate_field_blank_optional (formData : list (string * jsval))
    (errs : gmap string string) (f : FormField)
    (Hr : frequired f = false) (Hb : truthy (assoc_get (fid f) formData) = false) :
  validate_field isNaN_Number relatedResponses formData errs f = Some errs.
Proof.
  unfold validate_field. cbv zeta. rewrite Hr, Hb, !andb_false_r. reflexivity.
Qed.

End Extra.

(** X16: [validateForm] throws (gives no error map at all) as soon as
    an email or number field holds a truthy value that is not a string,
    since [value.trim] is then not a function. *)
Theorem validateForm_throws_on_non_string (isNaN_Number : string -> bool)
    (relatedResponses : string -> list jsval) (fields : list FormField)
    (formData : list (string * jsval)) (f : FormField) (Hin : In f fields)
    (Ht : ftype f = "email" \/ ftype f = "number")
    (Htr : truthy (assoc_get (fid f) formData) = true)
    (Hns : is_string (assoc_get (fid f) formData) = false) :
  validateForm isNaN_Number relatedResponses fields formData = None.
Proof.
  apply (validate_fields_throws _ _ _ _ f Hin). intros errs.
  by apply validate_field_throws.
Qed.

(** X17: every key of the error map is the id of one of the fields. *)
Theorem validateForm_error_keys (isNaN_Number : string -> bool)
    (relatedResponses : string -> list jsval) (fields : list FormField)
    (formData : list (string * jsval)) (errs : gmap string string)
    (H : validateForm isNaN_Number relatedResponses fields formData = Some errs)
    (k : string) (Hk : is_Some (errs !! k)) :
  exists f, In f fields /\ fid f = k.
Proof.
  destruct (validate_fields_keys _ _ _ _ _ _ H k Hk) as [H0|H0]; [|done].
  rewrite lookup_empty in H0. by destruct H0.
Qed.

(** X18: a form whose fields are all optional passes when every value
    is blank (falsy): no error at all. *)
Theorem validateForm_blank_optional_passes (isNaN_Number : string -> bool)
    (relatedResponses : string -> list jsval) (fields : list FormField)
    (formData : list (string * jsval))
    (H : Forall (fun f => frequired f = false /\ truthy (assoc_get (fid f) formData) = false)
           fields) :
  validateForm isNaN_Number relatedResponses fields formData = Some ∅.
Proof.
  unfold validateForm. generalize (∅ : gmap string string) as errs.
  induction H as [|f r [Hr Hb] Hrest IH]; intros errs; simpl; [done|].
  rewrite validate_field_blank_optional by done. apply IH.
Qed.

Definition sample_contact_fields : list FormField :=
  [mkField "age" "number" "Age" false JUndef JUndef;
   mkField "mail" "email" "Mail" true JUndef JUndef].

Lemma validateForm_throws_on_non_string_witness :
  validateForm (fun _ => false) (fun _ => []) sample_contact_fields
    [("age", JNum 42); ("mail", JStr "a@b.c")] = None.
Proof.
  apply (validateForm_throws_on_non_string _ _ _ _ (mkField "age" "number" "Age" false JUndef JUndef));
    [by left | by right | reflexivity | reflexivity].
Defined.

Lemma validateForm_error_keys_witness :
  exists f, In f sample_contact_fields /\ fid f = "mail".
Proof.
  apply (validateForm_error_keys (fun _ => false) (fun _ => []) sample_contact_fields
           [("age", JStr "")] (<["mail" := "Mail is required"]> ∅)).
  - reflexivity.
  - rewrite lookup_insert. by eexists.
Defined.

Lemma validateForm_blank_optional_passes_witness :
  validateForm (fun _ => false) (fun _ => [])
    [mkField "age" "number" "Age" false JUndef JUndef;
     mkField "note" "textarea" "Note" false JUndef JUndef]
    [("age", JNum 0); ("note", JStr "")] = Some ∅.
Proof.
  apply validateForm_blank_optional_passes.
  repeat constructor.
Defined.

End ValidationExtraFacts.

(* ================================================================= *)
(** ** Paginated responses *)

Module PaginatedFacts.
Import QueryBuilder Paginated.

(** X19: [getFormResponsesPaginated] sends the query of
    [getFormResponsesWithFilters] with no filter, and reads the answer
    the same way. *)
Theorem paginated_is_unfiltered (exec : list qop -> backend_result) (formId : string)
    (page pageSize : Z) :
  getFormResponsesPaginated exec formId page pageSize =
    getFormResponsesWithFilters exec formId [] page pageSize.
Proof. reflexivity. Qed.

End PaginatedFacts.
